(** * BiimSlideMaker: the narration pipeline of [movie_maker_gui.py]

    A shallow embedding of the segmentation, text layout, synthesis
    scheduling, manifest and assembly code of [movie_maker_gui.py], and the
    properties of the specification proved over it.

    Python values are modelled as follows.
    - [int] is [Z].
    - [str] is the list of its Unicode code points ([N]); string literals of
      the source are written as UTF-8 literals and decoded by [py].
    - a [dict] read from JSON is an association list, a [dict] used as a
      table is a [gmap].
    - a function that may raise returns a [result]. *)

From Stdlib Require Import ZArith NArith List String Ascii QArith Qminmax Lia.
From Stdlib Require Import Lqa DecimalN DecimalPos.
From stdpp Require Import gmap list sorting.
Import ListNotations.

Local Open Scope Z_scope.

(** ** Python strings *)

(** A [str] is a sequence of code points, [bytes] a sequence of octets. *)
Abbreviation char := N.
Abbreviation str := (list N).
Abbreviation bytes := (list N).

Module PyStr.

(** UTF-8 decoding of a literal: [pending] continuation bytes are still
    expected for the code point accumulated in [acc]. *)
Fixpoint utf8_decode (pending : nat) (acc : N) (octets : bytes) : str :=
  match octets with
  | [] => []
  | b :: rest =>
      match pending with
      | O =>
          if (b <? 0x80)%N then b :: utf8_decode 0 0%N rest
          else if (b <? 0xE0)%N then utf8_decode 1 (N.land b 0x1F) rest
          else if (b <? 0xF0)%N then utf8_decode 2 (N.land b 0x0F) rest
          else utf8_decode 3 (N.land b 0x07) rest
      | S k =>
          let acc' := (acc * 64 + N.land b 0x3F)%N in
          match k with
          | O => acc' :: utf8_decode 0 0%N rest
          | S _ => utf8_decode k acc' rest
          end
      end
  end.

(** The [str] denoted by a source literal. *)
Definition py (literal : string) : str :=
  utf8_decode 0 0%N (map N_of_ascii (list_ascii_of_string literal)).

(** [str.isspace] on one character: the white space table of CPython
    ([_PyUnicode_IsWhitespace]). *)
Definition isspace (c : char) : bool :=
  ((0x09 <=? c) && (c <=? 0x0D) || (0x1C <=? c) && (c <=? 0x20)
   || (c =? 0x85) || (c =? 0xA0) || (c =? 0x1680)
   || (0x2000 <=? c) && (c <=? 0x200A)
   || (c =? 0x2028) || (c =? 0x2029) || (c =? 0x202F) || (c =? 0x205F)
   || (c =? 0x3000))%N.

Fixpoint lstrip (s : str) : str :=
  match s with
  | [] => []
  | c :: rest => if isspace c then lstrip rest else s
  end.

Definition rstrip (s : str) : str := rev (lstrip (rev s)).

(** [s.strip()] *)
Definition strip (s : str) : str := rstrip (lstrip s).

(** [s.replace(c, "")] for a one-character [c]. *)
Definition remove_char (c : char) (s : str) : str :=
  List.filter (fun d => negb (d =? c)%N) s.

(** [s.split(sep)] for a one-character separator: every occurrence
    separates, empty pieces are kept, and [""] splits into [[""]]. *)
Fixpoint split (sep : char) (s : str) : list str :=
  match s with
  | [] => [[]]
  | c :: rest =>
      if (c =? sep)%N then [] :: split sep rest
      else match split sep rest with
           | [] => [[c]]
           | piece :: pieces => (c :: piece) :: pieces
           end
  end.

Fixpoint startswith (s prefix : str) {struct prefix} : bool :=
  match prefix with
  | [] => true
  | p :: prefix' =>
      match s with
      | [] => false
      | c :: s' => (c =? p)%N && startswith s' prefix'
      end
  end.

(** [s.endswith(suffix)] *)
Definition endswith (s suffix : str) : bool :=
  startswith (rev s) (rev suffix).

(** [s.endswith((a, b, ...))] *)
Definition endswith_any (s : str) (suffixes : list str) : bool :=
  existsb (endswith s) suffixes.

(** Truth value of a [str]: non-empty. *)
Definition truthy (s : str) : bool :=
  match s with [] => false | _ :: _ => true end.

End PyStr.

Abbreviation py := PyStr.py.

(** ** Results of code that may raise *)

Inductive error : Type :=
| RuntimeError
| ValueError
| TypeError
| KeyError
| AttributeError
| FileNotFoundError
| OSError
| HTTPError.

Inductive result (A : Type) : Type :=
| Ok (value : A)
| Raise (exc : error).
Arguments Ok {A} value.
Arguments Raise {A} exc.

Definition bind {A B : Type} (r : result A) (k : A -> result B) : result B :=
  match r with
  | Ok a => k a
  | Raise e => Raise e
  end.

Notation "'try' x <- r 'in' k" := (bind r (fun x => k))
  (at level 10, x name, r at level 100, k at level 200).

(** ** ScriptSegmenter: [split_script] *)

(** The delimiter ["。"] (U+3002). *)
Definition KUTEN : N := 0x3002%N.

(** The tuple given to [endswith] in [split_script]. *)
Definition TERMINALS : list str :=
  [py "。"; py "！"; py "？"; py "!"; py "."].

(** One iteration of the [for chunk in cleaned.split("。")] loop. *)
Definition split_script_step (parts : list str) (chunk : str)
  : list str :=
  let chunk := PyStr.strip chunk in
  if negb (PyStr.truthy chunk) then parts
  else
    let suffix :=
      if negb (PyStr.endswith_any chunk TERMINALS) then py "。" else [] in
    parts ++ [chunk ++ suffix].

(** [cleaned = (text or "").replace("\r", "")]; [None] stands for a missing
    script. *)
Definition cleaned (text : option str) : str :=
  PyStr.remove_char 0x0D%N (default [] text).

(** The list [parts] when the loop ends. *)
Definition split_script_parts (text : option str) : list str :=
  fold_left split_script_step (PyStr.split KUTEN (cleaned text)) [].

(** [return parts or [cleaned.strip()]] *)
Definition split_script (text : option str) : list str :=
  match split_script_parts text with
  | [] => [PyStr.strip (cleaned text)]
  | parts => parts
  end.

(** ** TextLayoutEngine: [wrap_text_lines] and [fit_text_to_box] *)

(** The font rasterizer (Pillow): loading a font file at a size, the
    rendered length of a text in pixels (a multiple of 1/64) and the font's
    ascent and descent. [ImageFont.truetype] reads the font file itself and
    raises when it cannot load it: [OSError] for a file that is missing or
    is not a font, and [OSError] or [ValueError] (depending on the version
    of Pillow) for a size below 1; [RuntimeError] is not among the errors it
    raises. *)
Class FontRasterizer : Type := {
  Font : Type;
  truetype : str -> Z -> result Font;
  textlength : Font -> str -> Q;
  getmetrics : Font -> Z * Z;
  truetype_raises : forall (font_path : str) (size : Z),
    truetype font_path size <> Raise RuntimeError;
}.

(** [re.split(r"\n+", s)]: the pieces between maximal runs of line feeds;
    [in_run] holds while inside such a run. *)
Fixpoint re_split_newlines (in_run : bool) (s : str) : list str :=
  match s with
  | [] => [[]]
  | c :: rest =>
      if (c =? 0x0A)%N then
        if in_run then re_split_newlines true rest
        else [] :: re_split_newlines true rest
      else
        match re_split_newlines false rest with
        | [] => [[c]]
        | piece :: pieces => (c :: piece) :: pieces
        end
  end.

Section TextLayout.
Context `{FontRasterizer}.

(** One iteration of [for char in paragraph]; the state is
    [(lines, current)]. *)
Definition wrap_char (font : Font) (max_width : Z)
  (state : list str * str) (char : N) : list str * str :=
  let '(lines, current) := state in
  let attempt := current ++ [char] in
  let width := textlength font attempt in
  if Qle_bool width (inject_Z max_width) || negb (PyStr.truthy current)
  then (lines, attempt)
  else (lines ++ [current], [char]).

(** One iteration of [for paragraph in re.split(...)]. *)
Definition wrap_paragraph (font : Font) (max_width : Z)
  (lines : list str) (paragraph : str) : list str :=
  if negb (PyStr.truthy paragraph) then lines
  else
    let '(lines, current) :=
      fold_left (wrap_char font max_width) paragraph (lines, []) in
    if PyStr.truthy current then lines ++ [current] else lines.

Definition wrap_text_lines (text : str) (font : Font) (max_width : Z)
  : list str :=
  if negb (PyStr.truthy text) then []
  else
    match fold_left (wrap_paragraph font max_width)
            (re_split_newlines false (PyStr.strip text)) [] with
    | [] => [[]]
    | lines => lines
    end.

(** The tuple [(font, lines, line_height, line_spacing)]. *)
Record Layout : Type := {
  layout_font : Font;
  layout_lines : list str;
  line_height : Z;
  line_spacing : Z;
}.

(** [range(start, stop, -2)]: [start - 2*i] for [i] below the length
    [(start - stop - 1) // 2 + 1], and empty unless [start > stop]. *)
Definition range_down2 (start stop : Z) : list Z :=
  if start >? stop then
    map (fun i => start - 2 * Z.of_nat i)
      (seq 0 (Z.to_nat ((start - stop - 1) / 2 + 1)))
  else [].

(** [int(size * 0.2)]: the product is a binary64 float and [int] truncates
    it towards zero. For [|size| < 2^52] the float is within one unit in the
    last place of [size / 5], so the truncation is that of the exact
    quotient. *)
Definition int_size_times_0_2 (size : Z) : Z := Z.quot size 5.

(** The tuple that the loop body assigns to [fallback] for one candidate
    [size], once its [font] is loaded. *)
Definition layout_of (text : str) (font : Font) (box_width size : Z)
  : Layout :=
  let lines := wrap_text_lines text font box_width in
  let '(ascent, descent) := getmetrics font in
  {| layout_font := font;
     layout_lines := lines;
     line_height := ascent + descent;
     line_spacing := Z.max 4 (int_size_times_0_2 size) |}.

(** The loop body up to the assignment of [fallback] for one candidate
    [size]: the font is loaded first, and the error of [ImageFont.truetype]
    leaves the function. *)
Definition layout_at (text font_path : str) (box_width size : Z)
  : result Layout :=
  try font <- truetype font_path size in
  Ok (layout_of text font box_width size).

Definition total_height (l : Layout) : Z :=
  let n := Z.of_nat (length (layout_lines l)) in
  line_height l * n + line_spacing l * Z.max 0 (n - 1).

(** The [for size in range(...)] loop; [fallback] is the variable of the
    same name, and the result is the layout returned from inside the loop or
    the value of [fallback] when the loop ends; a font that cannot be loaded
    ends the loop with the loader's error. *)
Fixpoint fit_loop (text font_path : str) (box_width box_height : Z)
  (sizes : list Z) (fallback : option Layout) : result (option Layout) :=
  match sizes with
  | [] => Ok fallback
  | size :: rest =>
      try l <- layout_at text font_path box_width size in
      if total_height l <=? box_height then Ok (Some l)
      else fit_loop text font_path box_width box_height rest (Some l)
  end.

Definition fit_text_to_box (text font_path : str) (box : Z * Z * Z * Z)
  (max_size min_size : Z) : result Layout :=
  let '(x0, y0, x1, y1) := box in
  let box_width := x1 - x0 in
  let box_height := y1 - y0 in
  try fallback <- fit_loop text font_path box_width box_height
                    (range_down2 max_size (min_size - 1)) None in
  match fallback with
  | None => Raise RuntimeError
  | Some l => Ok l
  end.

End TextLayout.

(** ** Data model *)

(** A parsed JSON document ([json.loads]) whose numbers are integers; an
    object is the [dict] it was read into. The text form of a document is
    the [json] module's business: a file written with [json.dumps] is
    modelled by the document itself. *)
#[local] Set Warnings "-register-all".
Inductive json : Type :=
| JNull
| JBool (b : bool)
| JInt (n : Z)
| JStr (s : str)
| JArr (items : list json)
| JObj (fields : list (str * json)).

(** [d.get(key)] on the fields of an object. *)
Fixpoint dict_get (key : str) (fields : list (str * json))
  : option json :=
  match fields with
  | [] => None
  | (k, v) :: rest =>
      if bool_decide (k = key) then Some v else dict_get key rest
  end.

(** The dataclass [Segment]. *)
Record Segment : Type := {
  slide_id : Z;
  chunk_index : Z;
  sequence : Z;
  script_text : str;
  note_bottom : str;
  slide_image : str;
  audio_path : str;
}.

(** One entry of the script's [slides] list: [id], [script] and
    [note_bottom], each of which may be missing. *)
Record Slide : Type := {
  slide_id_field : option Z;
  slide_script : option str;
  slide_note_bottom : option str;
}.

(** Calls received by the speech engine. *)
Inductive tts_call : Type :=
| InitializeSpeaker (speaker : str)
| Synthesize (speaker text dest : str).

(** A file by what it holds: the audio returned by the engine, a JSON
    document, a text, an image that Pillow can read, or a video; only the
    last but one is an image. *)
Inductive file : Type :=
| FAudio (wav : bytes)
| FJson (doc : json)
| FText (content : str)
| FImage
| FVideo.

(** What the pipeline sees of the outside: the files on disk by path (the
    font files apart, which the rasterizer reads), and the calls made to the
    speech engine so far. *)
Record World : Type := {
  fs : gmap str file;
  tts_log : list tts_call;
}.

(** The application object: the outside world and [self._manifest_cache]. *)
Record App : Type := {
  world : World;
  manifest_cache : list Segment;
}.

(** The settings held in the application's variables. *)
Record Config : Type := {
  pdf_var : str;
  yaml_var : str;
  audio_dir_var : str;
  frame_dir_var : str;
  segment_dir_var : str;
  manifest_path_var : str;
  concat_list_var : str;
  background_var : str;
  script_font_var : str;
  note_font_var : str;
  ffmpeg_var : str;
  speaker_id_var : str;
  prewarm_var : bool;
}.

(** [pathlib] and the built-in [int] on strings. *)
Class Platform : Type := {
  joinpath : str -> str -> str;
  as_posix : str -> str;
  int_of_str : str -> option Z;
}.

(** The speech engine behind [AivisSpeechClient] as it is while one stage
    runs: whether [/initialize_speaker] answers with success, and the audio
    returned by [/audio_query] followed by [/synthesis] ([None] for an HTTP
    error). Another run of a stage may meet the engine in another state,
    that is, another [TtsEngine]. *)
Class TtsEngine : Type := {
  engine_initialize : str -> bool;
  engine_synthesize : str -> str -> option bytes;
}.

(** The encoder process started by [run_ffmpeg]. *)
Class Encoder : Type := {
  run_ffmpeg : list str -> World -> result World;
}.

(** [Path(p).is_file()] *)
Definition is_file (w : World) (path : str) : bool :=
  match fs w !! path with
  | Some _ => true
  | None => false
  end.

Definition write_file (path : str) (f : file) (w : World) : World :=
  {| fs := <[path := f]> (fs w); tts_log := tts_log w |}.

Definition log_call (c : tts_call) (w : World) : World :=
  {| fs := fs w; tts_log := tts_log w ++ [c] |}.

(** The decimal digits of a [Decimal.uint]. *)
Fixpoint uint_digits (d : Decimal.uint) : str :=
  match d with
  | Decimal.Nil => []
  | Decimal.D0 d => 0x30%N :: uint_digits d
  | Decimal.D1 d => 0x31%N :: uint_digits d
  | Decimal.D2 d => 0x32%N :: uint_digits d
  | Decimal.D3 d => 0x33%N :: uint_digits d
  | Decimal.D4 d => 0x34%N :: uint_digits d
  | Decimal.D5 d => 0x35%N :: uint_digits d
  | Decimal.D6 d => 0x36%N :: uint_digits d
  | Decimal.D7 d => 0x37%N :: uint_digits d
  | Decimal.D8 d => 0x38%N :: uint_digits d
  | Decimal.D9 d => 0x39%N :: uint_digits d
  end.

(** [f"{n:0{width}d}"]: sign, then zeros up to [width], then the digits. *)
Definition format_d (width : nat) (n : Z) : str :=
  let digits := uint_digits (N.to_uint (Z.abs_N n)) in
  let sign := if n <? 0 then [0x2D%N] else [] in
  sign ++ repeat 0x30%N (width - length sign - length digits) ++ digits.

(** The property [Segment.chunk_name]. *)
Definition chunk_name (segment : Segment) : str :=
  format_d 3 (slide_id segment) ++ py "_" ++ format_d 2 (chunk_index segment).

(** ** ConcurrentSynthesisScheduler and ManifestStore: [_generate_audio] *)

Section Pipeline.
Context `{FontRasterizer} `{Platform} `{TtsEngine} `{Encoder}.

(** The body of the inner loop of [_generate_audio]: the [Segment] of
    sentence [idx] of a slide, or [FileNotFoundError] when the slide has no
    image. *)
Definition new_segment (cfg : Config) (slide_images : gmap Z str)
  (id : Z) (note : option str) (seq_no idx : Z) (sentence : str)
  : result Segment :=
  let path :=
    joinpath (audio_dir_var cfg)
      (py "chunk_" ++ format_d 3 id ++ py "_" ++ format_d 2 idx ++ py ".wav") in
  let segment :=
    {| slide_id := id;
       chunk_index := idx;
       sequence := seq_no;
       script_text := PyStr.strip sentence;
       note_bottom := default [] note;
       slide_image := default [] (slide_images !! id);
       audio_path := path |} in
  if negb (PyStr.truthy (slide_image segment)) then Raise FileNotFoundError
  else Ok segment.

(** [for idx, sentence in enumerate(sentences, start=1)], threading the
    list [segments] and the counter [sequence]. *)
Fixpoint build_chunks (cfg : Config) (slide_images : gmap Z str)
  (id : Z) (note : option str) (idx : Z) (sentences : list str)
  (segments : list Segment) (seq_no : Z) : result (list Segment * Z) :=
  match sentences with
  | [] => Ok (segments, seq_no)
  | sentence :: rest =>
      try segment <- new_segment cfg slide_images id note seq_no idx sentence in
      build_chunks cfg slide_images id note (idx + 1) rest
        (segments ++ [segment]) (seq_no + 1)
  end.

(** [for slide in slides] *)
Fixpoint build_slides (cfg : Config) (slide_images : gmap Z str)
  (slides : list Slide) (segments : list Segment) (seq_no : Z)
  : result (list Segment * Z) :=
  match slides with
  | [] => Ok (segments, seq_no)
  | slide :: rest =>
      let id := default seq_no (slide_id_field slide) in
      let sentences := split_script (slide_script slide) in
      try state <- build_chunks cfg slide_images id (slide_note_bottom slide)
                     1 sentences segments seq_no in
      build_slides cfg slide_images rest (fst state) (snd state)
  end.

(** The list [segments] built from the slides, numbered from 1. *)
Definition build_segments (cfg : Config) (slide_images : gmap Z str)
  (slides : list Slide) : result (list Segment) :=
  try state <- build_slides cfg slide_images slides [] 1 in
  Ok (fst state).

(** [AivisSpeechClient.initialize_speaker] *)
Definition client_initialize_speaker (speaker : str) (w : World)
  : result unit * World :=
  let w := log_call (InitializeSpeaker speaker) w in
  if engine_initialize speaker then (Ok tt, w) else (Raise HTTPError, w).

(** [AivisSpeechClient.synthesize] *)
Definition client_synthesize (speaker text dest : str) (w : World)
  : result unit * World :=
  let w := log_call (Synthesize speaker text dest) w in
  match engine_synthesize speaker text with
  | None => (Raise HTTPError, w)
  | Some wav => (Ok tt, write_file dest (FAudio wav) w)
  end.

(** The worker task [synthesize] of [_generate_audio]. *)
Definition synthesize (speaker : str) (segment : Segment) (w : World)
  : result unit * World :=
  if is_file w (audio_path segment) then (Ok tt, w)
  else client_synthesize speaker (script_text segment) (audio_path segment) w.

(** The worker pool. A task reads and writes no file but its own audio
    file, so the tasks are run one at a time, in an order [order] that
    stands for the scheduling of the pool; the executor lets every submitted
    task run even after one has failed, and the error that reaches the
    caller is that of a failed task. The workers call the engine
    concurrently: the place of a request in [tts_log] among those of the
    same pool has no counterpart in the program, and the properties of the
    pool are stated for every [order] and up to the order of its
    requests. *)
Fixpoint run_pool (speaker : str) (order : list Segment) (w : World)
  : result unit * World :=
  match order with
  | [] => (Ok tt, w)
  | segment :: rest =>
      let '(r, w) := synthesize speaker segment w in
      let '(r', w) := run_pool speaker rest w in
      (match r with Ok _ => r' | Raise e => Raise e end, w)
  end.

(** [segment.__dict__] as a JSON object. *)
Definition segment_dict (segment : Segment) : json :=
  JObj [ (py "slide_id", JInt (slide_id segment));
         (py "chunk_index", JInt (chunk_index segment));
         (py "sequence", JInt (sequence segment));
         (py "script_text", JStr (script_text segment));
         (py "note_bottom", JStr (note_bottom segment));
         (py "slide_image", JStr (slide_image segment));
         (py "audio_path", JStr (audio_path segment)) ].

(** The manifest [payload]; [now] is the formatted local time. *)
Definition manifest_payload (cfg : Config) (now : str)
  (segments : list Segment) : json :=
  JObj [ (py "generated_at", JStr now);
         (py "pdf", JStr (pdf_var cfg));
         (py "yaml", JStr (yaml_var cfg));
         (py "segments", JArr (map segment_dict segments)) ].

Definition write_manifest (cfg : Config) (now : str)
  (segments : list Segment) (w : World) : World :=
  write_file (manifest_path_var cfg)
    (FJson (manifest_payload cfg now segments)) w.

(** [_generate_audio] from the script's [slides] and the table
    [slide_images] of the slide directory on; [schedule] gives the order in
    which the pool deals with the tasks submitted to it. *)
Definition generate_audio (cfg : Config) (now : str)
  (slides : list Slide) (slide_images : gmap Z str)
  (schedule : list Segment -> list Segment) (app : App) : result unit * App :=
  match slides with
  | [] => (Raise ValueError, app)
  | _ :: _ =>
      if bool_decide (slide_images = ∅) then (Raise RuntimeError, app)
      else
        match build_segments cfg slide_images slides with
        | Raise e => (Raise e, app)
        | Ok [] => (Raise ValueError, app)
        | Ok segments =>
            let speaker := PyStr.strip (speaker_id_var cfg) in
            let '(warm, w) :=
              if prewarm_var cfg
              then client_initialize_speaker speaker (world app)
              else (Ok tt, world app) in
            match warm with
            | Raise e =>
                (Raise e,
                 {| world := w; manifest_cache := manifest_cache app |})
            | Ok _ =>
                let '(r, w) := run_pool speaker (schedule segments) w in
                match r with
                | Raise e =>
                    (Raise e,
                     {| world := w; manifest_cache := manifest_cache app |})
                | Ok _ =>
                    (Ok tt,
                     {| world := write_manifest cfg now segments w;
                        manifest_cache := segments |})
                end
            end
        end
  end.

(** ** ManifestStore: [_load_manifest_from_disk] *)

(** [int(v)] for a value read from JSON. *)
Definition py_int (v : json) : result Z :=
  match v with
  | JInt n => Ok n
  | JBool b => Ok (if b then 1 else 0)
  | JStr s =>
      match int_of_str s with
      | Some n => Ok n
      | None => Raise ValueError
      end
  | _ => Raise TypeError
  end.

(** [seg[key]] *)
Definition subscript (seg : json) (key : str) : result json :=
  match seg with
  | JObj fields =>
      match dict_get key fields with
      | Some v => Ok v
      | None => Raise KeyError
      end
  | _ => Raise TypeError
  end.

(** [seg.get(key, default)] *)
Definition get_default (seg : json) (key : str) (dflt : json)
  : result json :=
  match seg with
  | JObj fields => Ok (default dflt (dict_get key fields))
  | _ => Raise AttributeError
  end.

(** The fields annotated [str] hold text; a manifest with another kind of
    value there yields no [Segment] of the model. *)
Definition text_field (v : json) : result str :=
  match v with
  | JStr s => Ok s
  | _ => Raise TypeError
  end.

(** The [Segment(...)] built for item [idx] (from 0) of the stored list. *)
Definition load_segment (idx : nat) (seg : json) : result Segment :=
  try v_slide <- subscript seg (py "slide_id") in
  try id <- py_int v_slide in
  try v_chunk <- subscript seg (py "chunk_index") in
  try chunk <- py_int v_chunk in
  try v_seq <- get_default seg (py "sequence") (JInt (Z.of_nat idx + 1)) in
  try seq_no <- py_int v_seq in
  try v_text <- subscript seg (py "script_text") in
  try text <- text_field v_text in
  try v_note <- get_default seg (py "note_bottom") (JStr []) in
  try note <- text_field v_note in
  try v_image <- subscript seg (py "slide_image") in
  try image <- text_field v_image in
  try v_audio <- subscript seg (py "audio_path") in
  try audio <- text_field v_audio in
  Ok {| slide_id := id; chunk_index := chunk; sequence := seq_no;
        script_text := text; note_bottom := note; slide_image := image;
        audio_path := audio |}.

(** The comprehension over [enumerate(...)], from index [idx] on. *)
Fixpoint load_segments (idx : nat) (stored : list json)
  : result (list Segment) :=
  match stored with
  | [] => Ok []
  | seg :: rest =>
      try segment <- load_segment idx seg in
      try segments <- load_segments (S idx) rest in
      Ok (segment :: segments)
  end.

(** The items a value yields when iterated over. *)
Definition iterate (v : json) : result (list json) :=
  match v with
  | JArr items => Ok items
  | JStr s => Ok (map (fun c => JStr [c]) s)
  | JObj fields => Ok (map (fun kv => JStr (fst kv)) fields)
  | _ => Raise TypeError
  end.

Definition load_manifest_from_disk (cfg : Config) (app : App)
  : result (list Segment) * App :=
  match fs (world app) !! manifest_path_var cfg with
  | None => (Raise FileNotFoundError, app)
  | Some (FJson data) =>
      match
        (try stored <- get_default data (py "segments") (JArr []) in
         try items <- iterate stored in
         load_segments 0 items)
      with
      | Raise e => (Raise e, app)
      | Ok segments =>
          (Ok segments, {| world := world app; manifest_cache := segments |})
      end
  | Some _ => (Raise ValueError, app)
  end.

(** ** FrameCompositor and VideoAssembler: [_assemble_video] *)

Definition SCRIPT_BOX : Z * Z * Z * Z := (88, 847, 1850, 1009).
Definition NOTE_BOX : Z * Z * Z * Z := (1413, 66, 1857, 721).

(** The layout of one text block of a frame; a blank text has none. *)
Definition block_layout (text font_path : str) (box : Z * Z * Z * Z)
  (max_size min_size : Z) : result (option Layout) :=
  if PyStr.truthy (PyStr.strip text) then
    try l <- fit_text_to_box (PyStr.strip text) font_path box
               max_size min_size in
    Ok (Some l)
  else Ok None.

(** [Image.open(path)]: [FileNotFoundError] for a missing file, and
    [UnidentifiedImageError], which is an [OSError], for a file that is not
    an image. *)
Definition image_open (w : World) (path : str) : result unit :=
  match fs w !! path with
  | None => Raise FileNotFoundError
  | Some FImage => Ok tt
  | Some _ => Raise OSError
  end.

(** [compose_frame]: the background and then the slide are opened, the
    script block and then the note block are laid out, and the frame is
    saved; an error of any of these steps leaves the function before
    anything is written. The pixels are not modelled. *)
Definition compose_frame (slide_path background_path script_font note_font
  script note dest_path : str) (w : World) : result unit * World :=
  match
    (try base <- image_open w background_path in
     try slide <- image_open w slide_path in
     try script_layout <- block_layout script script_font SCRIPT_BOX 70 28 in
     try note_layout <- block_layout note note_font NOTE_BOX 46 18 in
     Ok tt)
  with
  | Raise e => (Raise e, w)
  | Ok _ => (Ok tt, write_file dest_path FImage w)
  end.

(** [self.ffmpeg_var.get().strip() or "ffmpeg"] *)
Definition ffmpeg_bin (cfg : Config) : str :=
  let bin := PyStr.strip (ffmpeg_var cfg) in
  if PyStr.truthy bin then bin else py "ffmpeg".

Definition clip_command (cfg : Config) (frame_path audio video_path : str)
  : list str :=
  [ffmpeg_bin cfg; py "-y"; py "-loop"; py "1"; py "-i"; frame_path;
   py "-i"; audio; py "-c:v"; py "libx264"; py "-tune"; py "stillimage";
   py "-preset"; py "medium"; py "-crf"; py "18"; py "-c:a"; py "aac";
   py "-b:a"; py "192k"; py "-shortest"; py "-pix_fmt"; py "yuv420p";
   video_path].

(** The body of the loop that makes one clip per segment. *)
Definition encode_clip (cfg : Config) (segment : Segment) (w : World)
  : result unit * World :=
  let chunk := chunk_name segment in
  let frame_path := joinpath (frame_dir_var cfg) (chunk ++ py ".png") in
  let video_path := joinpath (segment_dir_var cfg) (chunk ++ py ".mp4") in
  let '(r, w) :=
    compose_frame (slide_image segment) (background_var cfg)
      (script_font_var cfg) (note_font_var cfg)
      (script_text segment) (note_bottom segment) frame_path w in
  match r with
  | Raise e => (Raise e, w)
  | Ok _ =>
      if negb (is_file w (audio_path segment)) then (Raise FileNotFoundError, w)
      else
        match run_ffmpeg
                (clip_command cfg frame_path (audio_path segment) video_path) w
        with
        | Raise e => (Raise e, w)
        | Ok w' => (Ok tt, w')
        end
  end.

Fixpoint encode_clips (cfg : Config) (segments : list Segment) (w : World)
  : result unit * World :=
  match segments with
  | [] => (Ok tt, w)
  | segment :: rest =>
      let '(r, w) := encode_clip cfg segment w in
      match r with
      | Raise e => (Raise e, w)
      | Ok _ => encode_clips cfg rest w
      end
  end.

(** The line written to the concatenation list for one segment. *)
Definition concat_line (cfg : Config) (segment : Segment) : str :=
  py "file '"
  ++ as_posix (joinpath (segment_dir_var cfg) (chunk_name segment ++ py ".mp4"))
  ++ py "'" ++ [0x0A%N].

(** The list file is opened for writing and receives one [fp.write] per
    segment of [segments], in the order of the list. *)
Definition write_concat_list (cfg : Config) (segments : list Segment)
  (w : World) : World :=
  write_file (concat_list_var cfg)
    (FText
       (fold_left (fun written segment => written ++ concat_line cfg segment)
          segments []))
    w.

(** [segments = self._manifest_cache or self._load_manifest_from_disk()],
    and the check that the list is not empty. *)
Definition assembly_segments (cfg : Config) (app : App)
  : result (list Segment) * App :=
  let '(r, app) :=
    match manifest_cache app with
    | [] => load_manifest_from_disk cfg app
    | cache => (Ok cache, app)
    end in
  match r with
  | Ok [] => (Raise RuntimeError, app)
  | _ => (r, app)
  end.

(** [_assemble_video] up to and including the writing of the concatenation
    list; the two encoder runs that follow (concatenation and music) are not
    part of the model. *)
Definition assemble_video (cfg : Config) (app : App) : result unit * App :=
  let '(r, app) := assembly_segments cfg app in
  match r with
  | Raise e => (Raise e, app)
  | Ok segments =>
      let '(r, w) := encode_clips cfg segments (world app) in
      match r with
      | Raise e =>
          (Raise e, {| world := w; manifest_cache := manifest_cache app |})
      | Ok _ =>
          (Ok tt,
           {| world := write_concat_list cfg segments w;
              manifest_cache := manifest_cache app |})
      end
  end.

End Pipeline.

(** ** The specification's wording of the segmenter *)

(** A fragment with the delimiter appended unless it already ends in a
    terminal mark. *)
Definition terminated (fragment : str) : str :=
  if PyStr.endswith_any fragment TERMINALS then fragment
  else fragment ++ py "。".

(** The trimmed fragments between delimiters, the empty ones discarded. *)
Definition kept_fragments (text : option str) : list str :=
  List.filter PyStr.truthy
    (map PyStr.strip (PyStr.split KUTEN (cleaned text))).

(** A missing, empty or white-space-only text. *)
Definition blank (text : option str) : Prop :=
  forallb PyStr.isspace (default [] text) = true.

(** ** The specification's wording of the layout *)

Section LayoutWording.
Context `{FontRasterizer}.

(** A line no wider than the box, or else a single character that is wider
    than the box by itself. *)
Definition line_within (font : Font) (max_width : Z) (line : str) : Prop :=
  (textlength font line <= inject_Z max_width)%Q
  \/ (length line = 1%nat
      /\ ~ (textlength font line <= inject_Z max_width)%Q).

(** What every committed line and the line being grown satisfy: it was
    measured and found to fit, or it is a single character. *)
Definition placed (font : Font) (max_width : Z) (line : str) : Prop :=
  (textlength font line <= inject_Z max_width)%Q \/ length line = 1%nat.

(** The font file can be loaded at [size]. *)
Definition loads (font_path : str) (size : Z) : Prop :=
  exists font, truetype font_path size = Ok font.

(** The font file can be loaded at every candidate size of a search from
    [max_size] down to [min_size]. *)
Definition candidates_load (font_path : str) (max_size min_size : Z)
  : Prop :=
  forall size, In size (range_down2 max_size (min_size - 1)) ->
    loads font_path size.

(** The candidate [size] fits: its font loads and its block is no higher
    than the box. *)
Definition fits (text font_path : str) (box_width box_height size : Z)
  : Prop :=
  exists l, layout_at text font_path box_width size = Ok l
    /\ total_height l <= box_height.

(** The block height of a layout at [size] with the spacing
    [max(4, size*0.2)] taken as a real number. *)
Definition untruncated_height (l : Layout) (size : Z) : Q :=
  let n := inject_Z (Z.of_nat (length (layout_lines l))) in
  (inject_Z (line_height l) * n
   + Qmax 4 (inject_Z size * (2 # 10)) * (n - 1))%Q.

End LayoutWording.

(** ** The specification's wording of the pipeline *)

(** The synthesis requests among the calls received by the engine. *)
Definition synthesize_calls (w : World) : list tts_call :=
  List.filter
    (fun c => match c with Synthesize _ _ _ => true | _ => false end)
    (tts_log w).

(** The integers [first], [first + 1], ... ([count] of them). *)
Definition consecutive (first : Z) (count : nat) : list Z :=
  map (fun i => first + Z.of_nat i) (seq 0 count).

(** A stored segment of a manifest written without the [sequence] field. *)
Definition legacy_dict (segment : Segment) : json :=
  JObj [ (py "slide_id", JInt (slide_id segment));
         (py "chunk_index", JInt (chunk_index segment));
         (py "script_text", JStr (script_text segment));
         (py "note_bottom", JStr (note_bottom segment));
         (py "slide_image", JStr (slide_image segment));
         (py "audio_path", JStr (audio_path segment)) ].

(** The segments with [sequence] set to their position, counted from
    [idx + 1]. *)
Fixpoint renumbered (idx : nat) (segments : list Segment) : list Segment :=
  match segments with
  | [] => []
  | segment :: rest =>
      {| slide_id := slide_id segment;
         chunk_index := chunk_index segment;
         sequence := Z.of_nat idx + 1;
         script_text := script_text segment;
         note_bottom := note_bottom segment;
         slide_image := slide_image segment;
         audio_path := audio_path segment |}
      :: renumbered (S idx) rest
  end.

(** ** Sample collaborators

    A fixed-pitch font whose characters are as wide as the font size, a
    POSIX file system, an engine that answers every request, and an encoder
    that writes its last argument. *)
Module Sample.

(** The fixed-pitch font: every font file loads at every size. *)
Definition fixed_pitch (font_path : str) (size : Z) : result Z := Ok size.

#[local] Instance rasterizer : FontRasterizer := {|
  Font := Z;
  truetype := fixed_pitch;
  textlength := fun font s => inject_Z (font * Z.of_nat (length s));
  getmetrics := fun font => (font, 0);
  truetype_raises := ltac:(discriminate);
|}.

(** The same rasterizer on a machine without the font files: loading one
    raises [OSError]. *)
Definition no_font (font_path : str) (size : Z) : result Z := Raise OSError.

Definition rasterizer_without_fonts : FontRasterizer := {|
  Font := Z;
  truetype := no_font;
  textlength := fun font s => inject_Z (font * Z.of_nat (length s));
  getmetrics := fun font => (font, 0);
  truetype_raises := ltac:(discriminate);
|}.

#[local] Instance platform : Platform := {|
  joinpath := fun dir name => dir ++ py "/" ++ name;
  as_posix := fun p => p;
  int_of_str := fun _ => None;
|}.

#[local] Instance engine : TtsEngine := {|
  engine_initialize := fun _ => true;
  engine_synthesize := fun _ text => Some text;
|}.

#[local] Instance encoder : Encoder := {|
  run_ffmpeg :=
    fun command w => Ok (write_file (List.last command []) FVideo w);
|}.

Definition cfg : Config := {|
  pdf_var := py "deck.pdf";
  yaml_var := py "test.yaml";
  audio_dir_var := py "audio";
  frame_dir_var := py "frames";
  segment_dir_var := py "segments";
  manifest_path_var := py "movie_manifest.json";
  concat_list_var := py "concat_list.txt";
  background_var := py "background.png";
  script_font_var := py "script.ttf";
  note_font_var := py "note.ttf";
  ffmpeg_var := py "ffmpeg";
  speaker_id_var := py "888753760";
  prewarm_var := true;
|}.

(** Two slides: the first has two sentences, the second one. *)
Definition slides : list Slide :=
  [ {| slide_id_field := Some 1; slide_script := Some (py "A。B");
       slide_note_bottom := Some (py "note") |};
    {| slide_id_field := Some 2; slide_script := Some (py "C");
       slide_note_bottom := None |} ].

Definition slide_images : gmap Z str :=
  <[1 := py "slides/slide_001.png"]> (<[2 := py "slides/slide_002.png"]> ∅).

(** A disk that holds the slide images and the background. *)
Definition disk : World := {|
  fs := <[py "slides/slide_001.png" := FImage]>
          (<[py "slides/slide_002.png" := FImage]>
             (<[py "background.png" := FImage]> ∅));
  tts_log := [];
|}.

Definition app : App := {| world := disk; manifest_cache := [] |}.

Definition now : str := py "2024-01-01T00:00:00".

(** The third stored segment of a manifest without [sequence] fields, and
    the segment it loads as. *)
Definition legacy_fields : list (str * json) :=
  [ (py "slide_id", JInt 2); (py "chunk_index", JInt 1);
    (py "script_text", JStr (py "C。"));
    (py "slide_image", JStr (py "slides/slide_002.png"));
    (py "audio_path", JStr (py "audio/chunk_002_01.wav")) ].

Definition legacy_segment : Segment := {|
  slide_id := 2;
  chunk_index := 1;
  sequence := 3;
  script_text := py "C。";
  note_bottom := [];
  slide_image := py "slides/slide_002.png";
  audio_path := py "audio/chunk_002_01.wav";
|}.

(** The application after the synthesis stage has run once, the tasks
    completing in reverse order. *)
Definition app_after_synthesis : App :=
  snd (generate_audio cfg now slides slide_images (@rev Segment) app).

(** The world after the clips of the three segments have been encoded. *)
Definition world_after_clips : World :=
  snd (encode_clips cfg (manifest_cache app_after_synthesis)
         (world app_after_synthesis)).

(** The application started anew on a disk where the manifest stores the
    same three segments in the reverse order, each with its own [sequence]
    field. *)
Definition app_with_reordered_manifest : App := {|
  world :=
    write_manifest cfg now (rev (manifest_cache app_after_synthesis))
      (world app_after_synthesis);
  manifest_cache := [];
|}.

(** An engine that answers the pre-warm call but cannot synthesize. *)
Definition engine_without_synthesis : TtsEngine := {|
  engine_initialize := fun _ => true;
  engine_synthesize := fun _ _ => None;
|}.

End Sample.

(** ** Slide image files: [_generate_slides] and the table of [_generate_audio] *)

(** The slide id that [_generate_slides] gives page [index] (from 1): the [id]
    of the entry of the script at that position, and the page number when
    the script has no such entry or the entry has no [id]. *)
Definition page_slide_id (yaml_data : list Slide) (index : nat) : Z :=
  match yaml_data !! (index - 1)%nat with
  | Some slide => default (Z.of_nat index) (slide_id_field slide)
  | None => Z.of_nat index
  end.

(** The stem of the file [slide_{slide_id:03d}.png] that the page is saved
    as. *)
Definition slide_stem (id : Z) : str := py "slide_" ++ format_d 3 id.

Section SlideTable.
Context `{Platform}.

(** The characters that the pattern [\d] matches: the decimal digits of
    Unicode. *)
Variable isdecimal : char -> bool.

(** The longest run of digits at the start of [s]. *)
Fixpoint take_digits (s : str) : str :=
  match s with
  | [] => []
  | c :: rest => if isdecimal c then c :: take_digits rest else []
  end.

(** [re.search(r"(\d+)", s)]: the first run of digits of [s], if any. *)
Fixpoint search_digits (s : str) : option str :=
  match s with
  | [] => None
  | c :: rest =>
      if isdecimal c then Some (take_digits s) else search_digits rest
  end.

(** The key under which [_generate_audio] enters the file with stem [stem]
    in [slide_images]: [int(match.group(1))]; a stem without digits is left
    out. *)
Definition stem_key (stem : str) : option (result Z) :=
  match search_digits stem with
  | None => None
  | Some digits =>
      Some (match int_of_str digits with
            | Some n => Ok n
            | None => Raise ValueError
            end)
  end.

End SlideTable.

(** ** Notions used to state further properties *)

(** The number of occurrences of [c] in [s]. *)
Definition count_char (c : char) (s : str) : nat :=
  length (List.filter (N.eqb c) s).

(** A text that is empty or starts with a character other than white
    space. *)
Definition starts_clean (s : str) : Prop :=
  match s with
  | [] => True
  | c :: _ => PyStr.isspace c = false
  end.

(** Every break of [lines] was needed: the first character of a line did
    not fit at the end of the line before it. *)
Fixpoint breaks_needed `{FontRasterizer} (font : Font) (max_width : Z)
  (lines : list str) : Prop :=
  match lines with
  | line :: ((next :: _) as rest) =>
      match next with
      | [] => False
      | c :: _ => ~ (textlength font (line ++ [c]) <= inject_Z max_width)%Q
      end
      /\ breaks_needed font max_width rest
  | _ => True
  end.

(** ** TextLayoutEngine: [draw_text_block] *)

Section TextDrawing.
Context `{FontRasterizer}.

(** One call [draw.text((x, y), line, fill=color, font=font)]. The
    coordinates are the rationals that the floats of the source denote. *)
Record TextCall : Type := {
  call_x : Q;
  call_y : Q;
  call_text : str;
  call_fill : Z * Z * Z;
  call_font : Font;
}.

(** [align == "center"] *)
Definition centered (align : str) : bool := bool_decide (align = py "center").

(** The loop [for line in lines] of [draw_text_block], from the ordinate [y]
    on. *)
Fixpoint draw_lines (lines : list str) (font : Font) (x0 box_width : Z)
  (color : Z * Z * Z) (align : str) (line_height line_spacing : Z) (y : Q)
  : list TextCall :=
  match lines with
  | [] => []
  | line :: rest =>
      let x :=
        if centered align
        then (inject_Z x0 + (inject_Z box_width - textlength font line) / 2)%Q
        else inject_Z x0 in
      {| call_x := x; call_y := y; call_text := line; call_fill := color;
         call_font := font |}
      :: draw_lines rest font x0 box_width color align line_height
           line_spacing (y + inject_Z (line_height + line_spacing))%Q
  end.

(** [draw_text_block]: the calls to [draw.text] it makes, in order. *)
Definition draw_text_block (lines : list str) (font : Font)
  (box : Z * Z * Z * Z) (color : Z * Z * Z) (align : str)
  (line_height line_spacing : Z) : list TextCall :=
  match lines with
  | [] => []
  | _ :: _ =>
      let '(x0, y0, x1, y1) := box in
      let box_width := x1 - x0 in
      let box_height := y1 - y0 in
      let n := Z.of_nat (length lines) in
      let total_height := line_height * n + line_spacing * Z.max 0 (n - 1) in
      let y :=
        if centered align
        then (inject_Z y0 + inject_Z (box_height - total_height) / 2)%Q
        else inject_Z y0 in
      draw_lines lines font x0 box_width color align line_height
        line_spacing y
  end.

End TextDrawing.

(** ** Reading back a formatted integer *)

(** The [Decimal.uint] spelled by the leading decimal digits of [s]. *)
Fixpoint digits_uint (s : str) : Decimal.uint :=
  match s with
  | [] => Decimal.Nil
  | c :: rest =>
      if (c =? 0x30)%N then Decimal.D0 (digits_uint rest)
      else if (c =? 0x31)%N then Decimal.D1 (digits_uint rest)
      else if (c =? 0x32)%N then Decimal.D2 (digits_uint rest)
      else if (c =? 0x33)%N then Decimal.D3 (digits_uint rest)
      else if (c =? 0x34)%N then Decimal.D4 (digits_uint rest)
      else if (c =? 0x35)%N then Decimal.D5 (digits_uint rest)
      else if (c =? 0x36)%N then Decimal.D6 (digits_uint rest)
      else if (c =? 0x37)%N then Decimal.D7 (digits_uint rest)
      else if (c =? 0x38)%N then Decimal.D8 (digits_uint rest)
      else if (c =? 0x39)%N then Decimal.D9 (digits_uint rest)
      else Decimal.Nil
  end.

(** The integer spelled by an optional minus sign and decimal digits. *)
Definition parse_d (s : str) : Z :=
  match s with
  | [] => 0
  | c :: rest =>
      if (c =? 0x2D)%N then - Z.of_N (N.of_uint (digits_uint rest))
      else Z.of_N (N.of_uint (digits_uint s))
  end.

(** ** Notions used to state properties of the pipeline *)

(** The chunks of a slide with their indices, counted from [idx]. *)
Fixpoint numbered (idx : Z) (chunks : list str) : list (Z * str) :=
  match chunks with
  | [] => []
  | chunk :: rest => (idx, chunk) :: numbered (idx + 1) rest
  end.

(** What the segments of one slide hold: chunk index, sentence and note. *)
Definition slide_rows (slide : Slide) : list (Z * str * str) :=
  map (fun row => (fst row, snd row, default [] (slide_note_bottom slide)))
    (numbered 1 (split_script (slide_script slide))).

Definition segment_row (segment : Segment) : Z * str * str :=
  (chunk_index segment, script_text segment, note_bottom segment).

(** The request that the task of a segment sends to the engine. *)
Definition synthesize_request (speaker : str) (segment : Segment) : tts_call :=
  Synthesize speaker (script_text segment) (audio_path segment).

Section Derived.
Context `{Platform}.

(** A segment whose image is the entry of its slide in the table, whose
    audio path is derived from its chunk name, and whose chunk index is
    positive. *)
Definition derived (cfg : Config) (slide_images : gmap Z str)
  (segment : Segment) : Prop :=
  slide_images !! slide_id segment = Some (slide_image segment)
  /\ slide_image segment <> []
  /\ audio_path segment
     = joinpath (audio_dir_var cfg)
         (py "chunk_" ++ chunk_name segment ++ py ".wav")
  /\ 1 <= chunk_index segment.

End Derived.

(** [int] and [\d] on ASCII text: the decimal digits below 128 are ["0"] to
    ["9"], and a non-empty run of them denotes its decimal value. *)
Definition ascii_digit (c : char) : bool := ((0x30 <=? c) && (c <=? 0x39))%N.

Definition reads_ascii_digits `{Platform} (isdecimal : char -> bool) : Prop :=
  (forall c, (c < 128)%N -> isdecimal c = ascii_digit c)
  /\ (forall s,
        s <> [] -> forallb ascii_digit s = true ->
        int_of_str s = Some (Z.of_N (N.of_uint (digits_uint s)))).

(** A platform whose [int] reads runs of ASCII digits, and the ASCII part
    of [\d]. *)
Module SampleDigits.

Definition platform : Platform := {|
  joinpath := fun dir name => dir ++ py "/" ++ name;
  as_posix := fun p => p;
  int_of_str :=
    fun s =>
      match s with
      | [] => None
      | _ :: _ =>
          if forallb ascii_digit s
          then Some (Z.of_N (N.of_uint (digits_uint s)))
          else None
      end;
|}.

Definition isdecimal (c : char) : bool := ascii_digit c.

End SampleDigits.

(** ** Properties of the string operations *)

Example py_decodes_code_points :
  py "A。B。C" = [0x41; 0x3002; 0x42; 0x3002; 0x43]%N.
Proof. reflexivity. Qed.

Example terminals_code_points :
  TERMINALS = [[0x3002]; [0xFF01]; [0xFF1F]; [0x21]; [0x2E]]%N.
Proof. reflexivity. Qed.

Example format_d_pads_after_sign :
  format_d 3 7 = py "007" /\ format_d 3 (-5) = py "-05"
  /\ format_d 2 123 = py "123".
Proof. repeat split. Qed.

Example re_split_newlines_runs :
  re_split_newlines false [0x61; 0x0A; 0x0A; 0x62; 0x0A]%N
  = [[0x61]; [0x62]; []]%N.
Proof. reflexivity. Qed.

Lemma lstrip_spaces (s : str) :
  forallb PyStr.isspace s = true -> PyStr.lstrip s = [].
Proof.
  induction s as [|c s IH]; simpl; [reflexivity|].
  intros Hs. apply andb_prop in Hs as [Hc Hs]. rewrite Hc. auto.
Qed.

Lemma strip_spaces (s : str) :
  forallb PyStr.isspace s = true -> PyStr.strip s = [].
Proof.
  intros Hs. unfold PyStr.strip, PyStr.rstrip.
  rewrite (lstrip_spaces s) by assumption. reflexivity.
Qed.

Lemma split_without_separator (sep : N) (s : str) :
  forallb (fun c => negb (c =? sep)%N) s = true -> PyStr.split sep s = [s].
Proof.
  induction s as [|c s IH]; simpl; [reflexivity|].
  intros Hs. apply andb_prop in Hs as [Hc Hs].
  apply negb_true_iff in Hc. rewrite Hc, (IH Hs). reflexivity.
Qed.

Lemma forallb_remove_char (p : N -> bool) (c : N) (s : str) :
  forallb p s = true -> forallb p (PyStr.remove_char c s) = true.
Proof.
  induction s as [|d s IH]; simpl; [reflexivity|].
  intros Hs. apply andb_prop in Hs as [Hd Hs].
  destruct (negb (d =? c)%N); simpl; rewrite ?Hd; auto.
Qed.

Lemma endswith_last (s : str) (t : N) :
  PyStr.endswith s [t] = true <-> last s = Some t.
Proof.
  unfold PyStr.endswith. destruct s as [|c s _] using rev_ind; simpl.
  - split; discriminate.
  - rewrite rev_app_distr, last_snoc. simpl. rewrite andb_true_r, N.eqb_eq.
    split; congruence.
Qed.

(** [endswith] with the tuple of [split_script] looks at the last
    character only. *)
Lemma endswith_terminals (s : str) :
  PyStr.endswith_any s TERMINALS = true
  <-> exists c, last s = Some c
        /\ In c [0x3002; 0xFF01; 0xFF1F; 0x21; 0x2E]%N.
Proof.
  unfold PyStr.endswith_any. rewrite existsb_exists. split.
  - intros (suffix & Hin & Hends).
    change TERMINALS
      with [[0x3002]; [0xFF01]; [0xFF1F]; [0x21]; [0x2E]]%N in Hin.
    simpl in Hin.
    repeat (destruct Hin as [<- | Hin];
            [apply endswith_last in Hends; eexists; split;
             [exact Hends | simpl; tauto] |]).
    destruct Hin.
  - intros (c & Hlast & Hin). exists [c]. split.
    + change TERMINALS with [[0x3002]; [0xFF01]; [0xFF1F]; [0x21]; [0x2E]]%N.
      simpl in *. intuition (subst; auto).
    + now apply endswith_last.
Qed.

(** The loop of [split_script] appends the terminated non-empty fragments
    to what it started with. *)
Lemma split_script_loop (chunks parts : list str) :
  fold_left split_script_step chunks parts
  = parts ++ map terminated (List.filter PyStr.truthy (map PyStr.strip chunks)).
Proof.
  revert parts.
  induction chunks as [|chunk chunks IH]; intros parts;
    cbn [fold_left map List.filter].
  - now rewrite app_nil_r.
  - rewrite IH. unfold split_script_step, terminated.
    destruct (PyStr.truthy (PyStr.strip chunk)); cbn [negb map]; [|reflexivity].
    rewrite <- app_assoc.
    destruct (PyStr.endswith_any (PyStr.strip chunk) TERMINALS); cbn [negb app];
      rewrite ?app_nil_r; reflexivity.
Qed.

(** ** ScriptSegmenter *)

Lemma split_script_by_fragments (text : option str) :
  split_script text
  = match kept_fragments text with
    | [] => [PyStr.strip (cleaned text)]
    | fragments => map terminated fragments
    end.
Proof.
  unfold split_script, split_script_parts, kept_fragments.
  rewrite split_script_loop. cbn [app].
  destruct (List.filter _ _); reflexivity.
Qed.

(** C6. The loop of [split_script] keeps exactly the fragments between
    delimiters that are not empty once trimmed, in order, each with ["。"]
    appended unless it already ends in a terminal mark; these are the chunks
    returned whenever there is one, and ["A。B。C"] gives
    [["A。"; "B。"; "C。"]]. *)
Theorem split_script_terminated_fragments :
  (forall text, split_script_parts text = map terminated (kept_fragments text))
  /\ (forall text,
        split_script text
        = match kept_fragments text with
          | [] => [PyStr.strip (cleaned text)]
          | fragments => map terminated fragments
          end)
  /\ (forall fragment,
        terminated fragment
        = if PyStr.endswith_any fragment TERMINALS then fragment
          else fragment ++ [KUTEN])
  /\ split_script (Some (py "A。B。C")) = [py "A。"; py "B。"; py "C。"].
Proof.
  split; [|split; [|split]].
  - intros text. unfold split_script_parts, kept_fragments.
    now rewrite split_script_loop.
  - exact split_script_by_fragments.
  - reflexivity.
  - reflexivity.
Qed.

(** C7 as stated fails: the single chunk returned for ["Hello! Done"] does
    not end in a terminator of the original text, since its last character
    is a ["。"] that the text does not contain. *)
Lemma hello_done_ends_in_appended_delimiter :
  ~ (exists chunk t,
       split_script (Some (py "Hello! Done")) = [chunk]
       /\ last chunk = Some t
       /\ In t (py "Hello! Done")).
Proof.
  intros (chunk & t & Hsplit & Hlast & Hin).
  vm_compute in Hsplit. injection Hsplit as <-.
  vm_compute in Hlast. injection Hlast as <-.
  vm_compute in Hin. intuition discriminate.
Qed.

(** C7, amended. ["Hello! Done"] gives the single chunk ["Hello! Done。"]:
    the text is not split at ["!"] and is kept as it is, and one ["。"] is
    appended because its last character is not a terminal mark; a text that
    ends in one, such as ["Hello!"], is returned unchanged. *)
Theorem split_script_hello_done :
  split_script (Some (py "Hello! Done")) = [py "Hello! Done" ++ py "。"]
  /\ PyStr.endswith_any (py "Hello! Done") TERMINALS = false
  /\ split_script (Some (py "Hello!")) = [py "Hello!"].
Proof. repeat split; reflexivity. Qed.

(** C8. A missing, empty or white-space-only text gives exactly one chunk,
    the empty string. *)
Theorem split_script_blank (text : option str) :
  blank text -> split_script text = [[]] /\ length (split_script text) = 1%nat.
Proof.
  unfold blank. intros Hblank.
  assert (Hclean : forallb PyStr.isspace (cleaned text) = true)
    by now apply forallb_remove_char.
  assert (Hsplit : PyStr.split KUTEN (cleaned text) = [cleaned text]).
  { apply split_without_separator.
    apply forallb_forall. intros c Hin.
    pose proof (proj1 (forallb_forall _ _) Hclean c Hin) as Hc.
    destruct (N.eqb_spec c KUTEN) as [->|]; [|reflexivity].
    vm_compute in Hc. discriminate Hc. }
  assert (Hres : split_script text = [[]]).
  { rewrite split_script_by_fragments. unfold kept_fragments.
    rewrite Hsplit. cbn [map List.filter].
    rewrite (strip_spaces _ Hclean). reflexivity. }
  rewrite Hres. split; reflexivity.
Qed.

Lemma split_script_blank_witness :
  split_script (Some (py "  ")) = [[]]
  /\ length (split_script (Some (py "  "))) = 1%nat.
Proof. apply (split_script_blank (Some (py "  "))). reflexivity. Defined.

(** No text at all gives an empty list of chunks. *)
Lemma split_script_not_empty (text : option str) :
  split_script text <> [].
Proof.
  unfold split_script. destruct (split_script_parts text); discriminate.
Qed.

(** C10. [split_script] takes a chunk as terminated exactly when its last
    character is one of ["。"], ["！"], ["？"], ["!"] and ["."]; the
    half-width ["?"] is not among them, so a chunk that ends in it gets
    ["。"] appended, and ["OK?"] becomes ["OK?。"]. *)
Theorem split_script_terminal_marks :
  (forall chunk,
      PyStr.endswith_any chunk TERMINALS = true
      <-> exists c, last chunk = Some c
            /\ In c [0x3002; 0xFF01; 0xFF1F; 0x21; 0x2E]%N)
  /\ (forall parts chunk,
        last (PyStr.strip chunk) = Some 0x3F%N ->
        split_script_step parts chunk
        = parts ++ [PyStr.strip chunk ++ py "。"])
  /\ split_script (Some (py "OK?")) = [py "OK?。"].
Proof.
  split; [exact endswith_terminals|split; [|reflexivity]].
  intros parts chunk Hlast. unfold split_script_step.
  destruct (PyStr.strip chunk) as [|c s] eqn:Hs; [discriminate|].
  cbn [PyStr.truthy negb].
  destruct (PyStr.endswith_any (c :: s) TERMINALS) eqn:Hends; [|reflexivity].
  apply endswith_terminals in Hends as (t & Ht & Hin).
  rewrite Hlast in Ht. injection Ht as <-.
  simpl in Hin. intuition discriminate.
Qed.

Lemma split_script_terminal_marks_witness :
  split_script_step [] (py "OK? ") = [py "OK?" ++ py "。"].
Proof.
  apply (proj1 (proj2 split_script_terminal_marks) [] (py "OK? ")).
  reflexivity.
Defined.

(** ** TextLayoutEngine: wrapping *)

Section Wrapping.
Context `{FontRasterizer}.
Variables (font : Font) (max_width : Z).

#[local] Abbreviation placed := (placed font max_width).

Lemma wrap_char_placed (lines : list str) (current : str) (char : N) :
  Forall placed lines -> current = [] \/ placed current ->
  Forall placed (fst (wrap_char font max_width (lines, current) char))
  /\ placed (snd (wrap_char font max_width (lines, current) char)).
Proof.
  intros Hlines Hcurrent. unfold wrap_char.
  destruct (Qle_bool _ _) eqn:Hwidth; cbn [orb fst snd].
  - split; [assumption|]. left. now apply Qle_bool_iff.
  - destruct current as [|c current]; cbn [PyStr.truthy negb fst snd].
    + split; [assumption|]. now right.
    + split; [|now right].
      apply Forall_app. split; [assumption|].
      constructor; [|constructor].
      destruct Hcurrent as [Hnil|Hplaced]; [discriminate|assumption].
Qed.

Lemma wrap_chars_placed (paragraph : str) :
  forall lines current,
    Forall placed lines -> current = [] \/ placed current ->
    Forall placed
      (fst (fold_left (wrap_char font max_width) paragraph (lines, current)))
    /\ (snd (fold_left (wrap_char font max_width) paragraph (lines, current))
        = []
        \/ placed
             (snd (fold_left (wrap_char font max_width) paragraph
                     (lines, current)))).
Proof.
  induction paragraph as [|char paragraph IH]; intros lines current Hl Hc.
  - cbn [fold_left fst snd]. tauto.
  - cbn [fold_left].
    destruct (wrap_char_placed lines current char Hl Hc) as [Hl' Hc'].
    destruct (wrap_char font max_width (lines, current) char)
      as [lines' current'].
    apply IH; [exact Hl'|right; exact Hc'].
Qed.

Lemma wrap_paragraph_placed (lines : list str) (paragraph : str) :
  Forall placed lines ->
  Forall placed (wrap_paragraph font max_width lines paragraph).
Proof.
  intros Hlines. unfold wrap_paragraph.
  destruct (negb (PyStr.truthy paragraph)); [assumption|].
  destruct (wrap_chars_placed paragraph lines [] Hlines (or_introl eq_refl))
    as [Hl Hc].
  destruct (fold_left _ _ _) as [lines' current]. cbn [fst snd] in *.
  destruct current as [|c current]; cbn [PyStr.truthy]; [assumption|].
  apply Forall_app. split; [assumption|].
  constructor; [|constructor].
  destruct Hc as [Hnil|Hplaced]; [discriminate|assumption].
Qed.

Lemma wrap_paragraphs_placed (paragraphs : list str) :
  forall lines,
    Forall placed lines ->
    Forall placed (fold_left (wrap_paragraph font max_width) paragraphs lines).
Proof.
  induction paragraphs as [|paragraph paragraphs IH]; intros lines Hlines;
    cbn [fold_left]; [assumption|].
  apply IH. now apply wrap_paragraph_placed.
Qed.

Lemma placed_within (line : str) :
  placed line -> line_within font max_width line.
Proof.
  intros [Hfit|Hsingle]; [now left|].
  destruct (Qlt_le_dec (inject_Z max_width) (textlength font line))
    as [Hlt|Hle].
  - right. split; [assumption|]. now apply Qlt_not_le.
  - now left.
Qed.

(** C5. In a box of width [max_width >= 0], with a rasterizer for which
    the empty text has length 0, every line that [wrap_text_lines] returns
    is at most [max_width] wide, except that a line made of one character
    may be wider. *)
Theorem wrap_text_lines_within (text : str) :
  0 <= max_width ->
  (textlength font [] == 0)%Q ->
  Forall (line_within font max_width) (wrap_text_lines text font max_width).
Proof.
  intros Hwidth Hempty. unfold wrap_text_lines.
  destruct (negb (PyStr.truthy text)); [constructor|].
  pose proof (wrap_paragraphs_placed
                (re_split_newlines false (PyStr.strip text)) []
                (List.Forall_nil _))
    as Hplaced.
  destruct (fold_left _ _ _) as [|line lines].
  - constructor; [|constructor]. left. rewrite Hempty.
    change 0%Q with (inject_Z 0). now rewrite <- Zle_Qle.
  - eapply Forall_impl; [exact Hplaced|]. exact placed_within.
Qed.

End Wrapping.

Lemma wrap_text_lines_within_witness :
  Forall (line_within (H := Sample.rasterizer) 10 25)
    (wrap_text_lines (H := Sample.rasterizer) (py "narration") 10 25).
Proof.
  apply (wrap_text_lines_within (H := Sample.rasterizer) 10 25
           (py "narration")).
  - lia.
  - reflexivity.
Defined.

(** ** TextLayoutEngine: the candidate sizes *)

Lemma range_down2_nil (start stop : Z) :
  range_down2 start stop = [] <-> start <= stop.
Proof.
  unfold range_down2. destruct (Z.gtb_spec start stop) as [Hgt|Hle].
  - split; [|lia]. intros Hnil. exfalso.
    assert (Hn : Z.to_nat ((start - stop - 1) / 2 + 1) <> 0%nat).
    { assert (0 <= (start - stop - 1) / 2) by (apply Z.div_pos; lia). lia. }
    destruct (Z.to_nat _); [congruence|discriminate].
  - split; [lia|reflexivity].
Qed.

Lemma range_down2_In (start stop size : Z) :
  In size (range_down2 start stop)
  <-> stop < size <= start /\ (start - size) mod 2 = 0.
Proof.
  unfold range_down2. destruct (Z.gtb_spec start stop) as [Hgt|Hle].
  - rewrite in_map_iff. split.
    + intros (i & <- & Hi). apply in_seq in Hi.
      assert (Z.of_nat i <= (start - stop - 1) / 2) by lia.
      assert (2 * ((start - stop - 1) / 2) <= start - stop - 1)
        by (apply Z.mul_div_le; lia).
      split; [lia|].
      replace (start - (start - 2 * Z.of_nat i)) with (Z.of_nat i * 2) by lia.
      apply Z_mod_mult.
    + intros [Hrange Hmod]. exists (Z.to_nat ((start - size) / 2)).
      pose proof (Z.div_mod (start - size) 2 ltac:(lia)) as Hdm.
      assert (0 <= (start - size) / 2) by (apply Z.div_pos; lia).
      split; [lia|]. apply in_seq.
      assert ((start - size) / 2 <= (start - stop - 1) / 2)
        by (apply Z.div_le_mono; lia).
      lia.
  - simpl. split; [tauto|lia].
Qed.

Lemma descending_from (start : Z) (n k : nat) :
  StronglySorted Z.gt (map (fun i => start - 2 * Z.of_nat i) (seq k n)).
Proof.
  revert k. induction n as [|n IH]; intros k; cbn [seq map]; constructor.
  - apply IH.
  - apply List.Forall_forall. intros size Hin.
    apply in_map_iff in Hin as (i & <- & Hi). apply in_seq in Hi. lia.
Qed.

Lemma range_down2_sorted (start stop : Z) :
  StronglySorted Z.gt (range_down2 start stop).
Proof.
  unfold range_down2. destruct (start >? stop).
  - apply descending_from.
  - constructor.
Qed.

Lemma range_down2_last (start stop : Z) :
  stop < start ->
  last (range_down2 start stop)
  = Some (stop + 1 + (start - stop - 1) mod 2).
Proof.
  intros Hlt. unfold range_down2.
  destruct (Z.gtb_spec start stop) as [_|]; [|lia].
  assert (Hpos : 0 <= (start - stop - 1) / 2) by (apply Z.div_pos; lia).
  replace (Z.to_nat ((start - stop - 1) / 2 + 1))
    with (S (Z.to_nat ((start - stop - 1) / 2))) by lia.
  rewrite seq_S, map_app. cbn [map]. rewrite last_snoc. cbn [Nat.add]. f_equal.
  pose proof (Z.div_mod (start - stop - 1) 2 ltac:(lia)). lia.
Qed.

(** ** TextLayoutEngine: the search *)

Section Fitting.
Context `{FontRasterizer}.
Variables (text font_path : str) (box_width box_height : Z).

#[local] Abbreviation layout := (layout_at text font_path box_width).
#[local] Abbreviation fit := (fits text font_path box_width box_height).
#[local] Abbreviation loop :=
  (fit_loop text font_path box_width box_height).

Lemma layout_at_loaded (size : Z) (font : Font) :
  truetype font_path size = Ok font ->
  layout size = Ok (layout_of text font box_width size).
Proof. intros Hfont. unfold layout_at. now rewrite Hfont. Qed.

Lemma layout_at_raises (size : Z) (e : error) :
  layout size = Raise e -> truetype font_path size = Raise e.
Proof.
  unfold layout_at. destruct (truetype font_path size); cbn [bind];
    [discriminate|intros [= <-]; reflexivity].
Qed.

Lemma fits_layout (size : Z) (l : Layout) :
  layout size = Ok l -> fit size <-> total_height l <= box_height.
Proof.
  intros Hl. unfold fits. split.
  - intros (l' & Hl' & Hle). congruence.
  - intros Hle. now exists l.
Qed.

(** Over descending candidates whose fonts load, the loop returns the
    layout of the largest one that fits, and that of the last one when none
    fits. *)
Lemma fit_loop_descending (sizes : list Z) :
  forall fallback,
    StronglySorted Z.gt sizes -> sizes <> [] ->
    (forall s, In s sizes -> loads font_path s) ->
    exists size l,
      In size sizes
      /\ layout size = Ok l
      /\ loop sizes fallback = Ok (Some l)
      /\ ((fit size /\ forall s, In s sizes -> size < s -> ~ fit s)
          \/ ((forall s, In s sizes -> ~ fit s) /\ last sizes = Some size)).
Proof.
  induction sizes as [|size rest IH]; intros fallback Hsorted Hne Hload;
    [congruence|].
  apply StronglySorted_inv in Hsorted as [Hrest Hbelow].
  rewrite List.Forall_forall in Hbelow.
  destruct (Hload size (or_introl eq_refl)) as [font Hfont].
  pose proof (layout_at_loaded size font Hfont) as Hl.
  pose proof (fits_layout size _ Hl) as Hfits.
  cbn [fit_loop]. rewrite Hl. cbn [bind].
  destruct (Z.leb_spec (total_height (layout_of text font box_width size))
              box_height) as [Hfit|Hno].
  - exists size, (layout_of text font box_width size).
    split; [now left|]. split; [exact Hl|]. split; [reflexivity|]. left.
    split; [now apply Hfits|]. intros s [<-|Hin] Hlt; [lia|].
    specialize (Hbelow s Hin). lia.
  - assert (Hnot : ~ fit size) by (rewrite Hfits; lia).
    destruct rest as [|next rest].
    + exists size, (layout_of text font box_width size).
      split; [now left|]. split; [exact Hl|]. split; [reflexivity|]. right.
      split; [|reflexivity]. now intros s [<-|[]].
    + destruct (IH (Some (layout_of text font box_width size)) Hrest
                  ltac:(discriminate)
                  (fun s Hs => Hload s (or_intror Hs)))
        as (found & l & Hin & Hfound & Hloop & Hcase).
      exists found, l. split; [now right|]. split; [exact Hfound|].
      split; [exact Hloop|].
      destruct Hcase as [[Hfit Hlarger]|[Hnone Hlast]].
      * left. split; [exact Hfit|]. intros s [<-|Hs] Hlt;
          [exact Hnot|now apply Hlarger].
      * right. split; [|exact Hlast]. intros s [<-|Hs];
          [exact Hnot|now apply Hnone].
Qed.

(** Once [fallback] is set the loop does not end with it unset. *)
Lemma fit_loop_fallback (sizes : list Z) :
  forall l, loop sizes (Some l) <> Ok None.
Proof.
  induction sizes as [|size rest IH]; intros l; cbn [fit_loop];
    [discriminate|].
  destruct (layout size) as [l'|e]; cbn [bind]; [|discriminate].
  destruct (total_height l' <=? box_height); [discriminate|apply IH].
Qed.

Lemma fit_loop_none (sizes : list Z) :
  loop sizes None = Ok None <-> sizes = [].
Proof.
  destruct sizes as [|size rest]; cbn [fit_loop]; [tauto|].
  split; [|discriminate]. intros Hloop. exfalso. revert Hloop.
  destruct (layout size) as [l|e]; cbn [bind]; [|discriminate].
  destruct (total_height l <=? box_height); [discriminate|].
  apply fit_loop_fallback.
Qed.

(** The loop raises nothing of its own: an error is that of the loader. *)
Lemma fit_loop_raises (sizes : list Z) :
  forall fallback, loop sizes fallback <> Raise RuntimeError.
Proof.
  induction sizes as [|size rest IH]; intros fallback; cbn [fit_loop];
    [discriminate|].
  destruct (layout size) as [l|e] eqn:Hl; cbn [bind].
  - destruct (total_height l <=? box_height); [discriminate|apply IH].
  - intros [= ->]. apply layout_at_raises in Hl.
    now apply truetype_raises in Hl.
Qed.

End Fitting.

Section FittingOutcome.
Context `{FontRasterizer}.
Variables (text font_path : str) (box : Z * Z * Z * Z)
  (max_size min_size : Z).

Lemma fit_text_to_box_empty :
  max_size < min_size ->
  fit_text_to_box text font_path box max_size min_size = Raise RuntimeError.
Proof.
  intros Hlt. destruct box as [[[x0 y0] x1] y1]. unfold fit_text_to_box.
  replace (range_down2 max_size (min_size - 1)) with (@nil Z)
    by (symmetry; apply range_down2_nil; lia).
  reflexivity.
Qed.

Lemma fit_text_to_box_ok :
  min_size <= max_size ->
  candidates_load font_path max_size min_size ->
  exists l, fit_text_to_box text font_path box max_size min_size = Ok l.
Proof.
  intros Hsizes Hload. destruct box as [[[x0 y0] x1] y1].
  unfold fit_text_to_box.
  destruct (fit_loop_descending text font_path (x1 - x0) (y1 - y0)
              (range_down2 max_size (min_size - 1)) None
              (range_down2_sorted _ _)
              ltac:(rewrite range_down2_nil; lia) Hload)
    as (size & l & _ & _ & -> & _).
  now exists l.
Qed.

Lemma fit_text_to_box_runtime_error :
  fit_text_to_box text font_path box max_size min_size = Raise RuntimeError ->
  max_size < min_size.
Proof.
  destruct box as [[[x0 y0] x1] y1]. unfold fit_text_to_box.
  destruct (fit_loop _ _ _ _ _ _) as [[l|]|e] eqn:Hloop; cbn [bind].
  - discriminate.
  - intros _. apply fit_loop_none in Hloop.
    apply range_down2_nil in Hloop. lia.
  - intros [= ->]. now apply fit_loop_raises in Hloop.
Qed.

Lemma fit_text_to_box_first_font (e : error) :
  min_size <= max_size ->
  truetype font_path max_size = Raise e ->
  fit_text_to_box text font_path box max_size min_size = Raise e.
Proof.
  intros Hle Hfont. destruct box as [[[x0 y0] x1] y1].
  unfold fit_text_to_box, range_down2.
  destruct (Z.gtb_spec max_size (min_size - 1)) as [_|]; [|lia].
  assert (Hpos : 0 <= (max_size - (min_size - 1) - 1) / 2)
    by (apply Z.div_pos; lia).
  replace (Z.to_nat ((max_size - (min_size - 1) - 1) / 2 + 1))
    with (S (Z.to_nat ((max_size - (min_size - 1) - 1) / 2))) by lia.
  cbn [seq map fit_loop]. replace (max_size - 2 * Z.of_nat 0) with max_size
    by lia.
  unfold layout_at. rewrite Hfont. reflexivity.
Qed.

End FittingOutcome.

(** C4 as stated fails, with the sample font.
    - From 5 down to 2 the candidates are 5 and 3; none fits a box of
      height 1, not even size 2, and the layout returned is that of size 3,
      not that of [min_size].
    - The spacing at size 28 is 5, not 5.6: size 28 is returned for a box of
      height 61 although the block with the spacing [max(4, size*0.2)] would
      be 61.6 high.
    - From 2 down to 5 there is no candidate and no layout. *)
Lemma fit_text_to_box_not_as_stated :
  let fit := fit_text_to_box (H := Sample.rasterizer) in
  let layout := layout_at (H := Sample.rasterizer) in
  (fit (py "a") (py "font.ttf") (0, 0, 100, 1) 5 2
   = layout (py "a") (py "font.ttf") 100 3
   /\ (exists l, layout (py "a") (py "font.ttf") 100 3 = Ok l)
   /\ ~ fits (H := Sample.rasterizer) (py "a") (py "font.ttf") 100 1 2
   /\ layout (py "a") (py "font.ttf") 100 3
      <> layout (py "a") (py "font.ttf") 100 2)
  /\ (exists l,
        layout (py "ab") (py "font.ttf") 30 28 = Ok l
        /\ fit (py "ab") (py "font.ttf") (0, 0, 30, 61) 28 26 = Ok l
        /\ ~ Qle (untruncated_height (H := Sample.rasterizer) l 28)
               (inject_Z 61))
  /\ fit (py "a") (py "font.ttf") (0, 0, 100, 1) 2 5 = Raise RuntimeError.
Proof.
  cbv zeta. split; [split; [|split; [|split]]|split].
  - reflexivity.
  - eexists. reflexivity.
  - intros (l & Hl & Hle). vm_compute in Hl. injection Hl as <-.
    vm_compute in Hle. now apply Hle.
  - vm_compute. discriminate.
  - eexists. split; [reflexivity|]. split; [reflexivity|].
    vm_compute. intros Hle. apply Hle. reflexivity.
  - reflexivity.
Qed.

(** C4, amended. For [min_size <= max_size] the candidates are the sizes
    [max_size], [max_size - 2], ... that are at least [min_size], in
    descending order. The layout of a candidate whose font is loaded has
    [line_height = ascent + descent] and
    [line_spacing = max(4, int(size * 0.2))], and its block height is
    [line_height * lines + line_spacing * max(0, lines - 1)].
    When the font loads at every candidate size, [fit_text_to_box] returns
    the layout of the largest candidate whose block height is at most the
    box height; when no candidate fits it returns the layout of the smallest
    candidate, which is [min_size] when [max_size - min_size] is even and
    [min_size + 1] when it is odd. *)
Theorem fit_text_to_box_search `{FontRasterizer}
  (text font_path : str) (x0 y0 x1 y1 max_size min_size : Z) :
  min_size <= max_size ->
  candidates_load font_path max_size min_size ->
  let box_width := x1 - x0 in
  let box_height := y1 - y0 in
  let sizes := range_down2 max_size (min_size - 1) in
  let layout := layout_at text font_path box_width in
  let fit := fits text font_path box_width box_height in
  (forall size,
      In size sizes
      <-> min_size <= size <= max_size /\ (max_size - size) mod 2 = 0)
  /\ StronglySorted Z.gt sizes
  /\ (forall size font,
        truetype font_path size = Ok font ->
        exists l,
          layout size = Ok l
          /\ layout_font l = font
          /\ layout_lines l = wrap_text_lines text font box_width
          /\ line_height l = fst (getmetrics font) + snd (getmetrics font)
          /\ line_spacing l = Z.max 4 (Z.quot size 5)
          /\ total_height l
             = line_height l * Z.of_nat (length (layout_lines l))
               + line_spacing l
                 * Z.max 0 (Z.of_nat (length (layout_lines l)) - 1))
  /\ exists size l,
       In size sizes
       /\ layout size = Ok l
       /\ fit_text_to_box text font_path (x0, y0, x1, y1) max_size min_size
          = Ok l
       /\ ((fit size /\ forall s, In s sizes -> size < s -> ~ fit s)
           \/ ((forall s, In s sizes -> ~ fit s)
               /\ size = min_size + (max_size - min_size) mod 2)).
Proof.
  intros Hle Hload box_width box_height sizes layout fit.
  split; [|split; [|split]].
  - intros size. unfold sizes. rewrite range_down2_In. lia.
  - apply range_down2_sorted.
  - intros size font Hfont. exists (layout_of text font box_width size).
    split; [now apply layout_at_loaded|].
    unfold layout_of. destruct (getmetrics font) as [ascent descent].
    repeat split.
  - assert (Hne : sizes <> []).
    { unfold sizes. rewrite range_down2_nil. lia. }
    destruct (fit_loop_descending text font_path box_width box_height sizes
                None (range_down2_sorted _ _) Hne Hload)
      as (size & l & Hin & Hl & Hloop & Hcase).
    exists size, l. split; [exact Hin|]. split; [exact Hl|]. split.
    + unfold fit_text_to_box. fold box_width box_height sizes.
      now rewrite Hloop.
    + destruct Hcase as [Hfit|[Hnone Hlast]]; [now left|right].
      split; [exact Hnone|].
      unfold sizes in Hlast. rewrite range_down2_last in Hlast by lia.
      injection Hlast as <-.
      replace (max_size - (min_size - 1) - 1) with (max_size - min_size) by lia.
      lia.
Qed.

Lemma fit_text_to_box_search_witness :
  exists size l,
    In size (range_down2 40 (10 - 1))
    /\ layout_at (H := Sample.rasterizer)
         (py "narration") (py "font.ttf") (100 - 0) size = Ok l
    /\ fit_text_to_box (H := Sample.rasterizer)
         (py "narration") (py "font.ttf") (0, 0, 100, 50) 40 10
       = Ok l.
Proof.
  destruct (fit_text_to_box_search (H := Sample.rasterizer)
              (py "narration") (py "font.ttf") 0 0 100 50 40 10 ltac:(lia)
              ltac:(intros size _; eexists; reflexivity))
    as (_ & _ & _ & size & l & Hin & Hl & Hfit & _).
  exists size, l. split; [exact Hin|]. split; [exact Hl|exact Hfit].
Defined.

(** C9 as stated fails: with [min_size <= max_size] the function still
    raises when the font file cannot be loaded, here [OSError] from
    [ImageFont.truetype] at the first candidate size 70. *)
Lemma fit_text_to_box_unloadable_font :
  let fit := fit_text_to_box (H := Sample.rasterizer_without_fonts) in
  28 <= 70
  /\ fit (py "a") (py "font.ttf") (0, 0, 100, 100) 70 28 = Raise OSError
  /\ ~ exists l, fit (py "a") (py "font.ttf") (0, 0, 100, 100) 70 28 = Ok l.
Proof.
  cbv zeta. split; [lia|]. split; [reflexivity|].
  intros [l Hl]. vm_compute in Hl. discriminate.
Qed.

(** C9, amended. When the font loads at every candidate size,
    [fit_text_to_box] returns a layout exactly when [min_size <= max_size].
    It raises [RuntimeError] exactly when [max_size < min_size], whatever
    the font: the range of candidates is then empty, no font is loaded and
    [fallback] is never set. With [min_size <= max_size] and a font that
    cannot be loaded at [max_size], the error of the loader leaves the
    function. *)
Theorem fit_text_to_box_returns_iff `{FontRasterizer}
  (text font_path : str) (box : Z * Z * Z * Z) (max_size min_size : Z) :
  (candidates_load font_path max_size min_size ->
   ((exists l, fit_text_to_box text font_path box max_size min_size = Ok l)
    <-> min_size <= max_size))
  /\ (fit_text_to_box text font_path box max_size min_size = Raise RuntimeError
      <-> max_size < min_size)
  /\ (range_down2 max_size (min_size - 1) = [] <-> max_size < min_size)
  /\ (forall box_width box_height,
        fit_loop text font_path box_width box_height [] None = Ok None)
  /\ (forall e,
        min_size <= max_size ->
        truetype font_path max_size = Raise e ->
        fit_text_to_box text font_path box max_size min_size = Raise e).
Proof.
  split; [|split; [|split; [|split]]].
  - intros Hload. split.
    + intros [l Hl].
      destruct (Z.le_gt_cases min_size max_size) as [|Hgt]; [assumption|].
      rewrite fit_text_to_box_empty in Hl by lia. discriminate.
    + intros Hle. now apply fit_text_to_box_ok.
  - split; [apply fit_text_to_box_runtime_error|apply fit_text_to_box_empty].
  - rewrite range_down2_nil. lia.
  - reflexivity.
  - intros e. apply fit_text_to_box_first_font.
Qed.

Lemma fit_text_to_box_returns_iff_witness :
  (exists l,
     fit_text_to_box (H := Sample.rasterizer)
       (py "narration") (py "font.ttf") (0, 0, 100, 50) 40 10 = Ok l)
  /\ fit_text_to_box (H := Sample.rasterizer_without_fonts)
       (py "narration") (py "font.ttf") (0, 0, 100, 50) 40 10
     = Raise OSError.
Proof.
  split.
  - apply (fit_text_to_box_returns_iff (H := Sample.rasterizer)
             (py "narration") (py "font.ttf") (0, 0, 100, 50) 40 10);
      [intros size _; eexists; reflexivity|lia].
  - apply (fit_text_to_box_returns_iff (H := Sample.rasterizer_without_fonts)
             (py "narration") (py "font.ttf") (0, 0, 100, 50) 40 10);
      [lia|reflexivity].
Defined.

(** ** Numbering of the segments *)

Lemma consecutive_S (first : Z) (count : nat) :
  consecutive first (S count) = first :: consecutive (first + 1) count.
Proof.
  unfold consecutive. cbn [seq map]. f_equal; [lia|].
  rewrite <- seq_shift, map_map. apply map_ext. intros i. lia.
Qed.

Lemma consecutive_app (first : Z) (n m : nat) :
  consecutive first (n + m)
  = consecutive first n ++ consecutive (first + Z.of_nat n) m.
Proof.
  revert first. induction n as [|n IH]; intros first.
  - cbn [Nat.add]. change (consecutive first 0) with (@nil Z). cbn [app].
    now replace (first + Z.of_nat 0) with first by lia.
  - cbn [Nat.add]. rewrite !consecutive_S, IH. cbn [app].
    now replace (first + 1 + Z.of_nat n) with (first + Z.of_nat (S n)) by lia.
Qed.

Lemma consecutive_sorted (first : Z) (count : nat) :
  StronglySorted Z.lt (consecutive first count).
Proof.
  revert first. induction count as [|count IH]; intros first.
  - constructor.
  - rewrite consecutive_S. constructor; [apply IH|].
    apply List.Forall_forall. intros z Hz. unfold consecutive in Hz.
    apply in_map_iff in Hz as (i & <- & _). lia.
Qed.

Section Numbering.
Context `{Platform}.
Variables (cfg : Config) (slide_images : gmap Z str).

Lemma new_segment_sequence (id : Z) (note : option str) (seq_no idx : Z)
  (sentence : str) (segment : Segment) :
  new_segment cfg slide_images id note seq_no idx sentence = Ok segment ->
  sequence segment = seq_no.
Proof.
  unfold new_segment. destruct (negb _); [discriminate|].
  intros Hok. injection Hok as <-. reflexivity.
Qed.

Lemma build_chunks_numbered (id : Z) (note : option str)
  (sentences : list str) :
  forall idx segments seq_no segments' seq_no',
    build_chunks cfg slide_images id note idx sentences segments seq_no
    = Ok (segments', seq_no') ->
    exists new,
      segments' = segments ++ new
      /\ length new = length sentences
      /\ seq_no' = seq_no + Z.of_nat (length new)
      /\ map sequence new = consecutive seq_no (length new).
Proof.
  induction sentences as [|sentence rest IH];
    intros idx segments seq_no segments' seq_no' Hbuild;
    cbn [build_chunks] in Hbuild.
  - injection Hbuild as <- <-. exists []. rewrite app_nil_r.
    repeat split. cbn [length]. lia.
  - destruct (new_segment cfg slide_images id note seq_no idx sentence)
      as [segment|] eqn:Hnew; cbn [bind] in Hbuild; [|discriminate].
    apply new_segment_sequence in Hnew.
    apply IH in Hbuild as (new & -> & Hlen & -> & Hseq).
    exists (segment :: new). rewrite <- app_assoc. cbn [app length map].
    rewrite consecutive_S, Hnew, Hseq, Hlen.
    repeat split. lia.
Qed.

Lemma build_slides_numbered (slides : list Slide) :
  forall segments seq_no segments' seq_no',
    build_slides cfg slide_images slides segments seq_no
    = Ok (segments', seq_no') ->
    exists new,
      segments' = segments ++ new
      /\ seq_no' = seq_no + Z.of_nat (length new)
      /\ map sequence new = consecutive seq_no (length new)
      /\ (length slides <= length new)%nat.
Proof.
  induction slides as [|slide rest IH];
    intros segments seq_no segments' seq_no' Hbuild;
    cbn [build_slides] in Hbuild.
  - injection Hbuild as <- <-. exists []. rewrite app_nil_r.
    repeat split; cbn [length]; lia.
  - destruct (build_chunks _ _ _ _ _ _ _ _) as [[mid seq_mid]|] eqn:Hchunks;
      cbn [bind fst snd] in Hbuild; [|discriminate].
    pose proof (split_script_not_empty (slide_script slide)) as Hsentences.
    apply build_chunks_numbered in Hchunks as (new1 & -> & Hlen1 & -> & Hseq1).
    apply IH in Hbuild as (new2 & -> & -> & Hseq2 & Hlen2).
    exists (new1 ++ new2).
    rewrite <- app_assoc, map_app, length_app, consecutive_app, Hseq1, Hseq2.
    repeat split; [lia|].
    destruct (split_script (slide_script slide)); [congruence|].
    cbn [length] in *. lia.
Qed.

(** The segments built from the slides carry the sequence numbers 1, 2, ...
    in list order, and there is at least one per slide. *)
Lemma build_segments_numbered (slides : list Slide) (segments : list Segment) :
  build_segments cfg slide_images slides = Ok segments ->
  map sequence segments = consecutive 1 (length segments)
  /\ (length slides <= length segments)%nat.
Proof.
  unfold build_segments. intros Hbuild.
  destruct (build_slides cfg slide_images slides [] 1) as [[built seq_no]|]
    eqn:Hslides; cbn [bind fst] in Hbuild; [|discriminate].
  injection Hbuild as <-.
  apply build_slides_numbered in Hslides as (new & -> & _ & Hseq & Hlen).
  cbn [app]. split; assumption.
Qed.

End Numbering.

(** ** ManifestStore *)

Section Manifest.
Context `{Platform}.

Lemma load_segment_dict (idx : nat) (segment : Segment) :
  load_segment idx (segment_dict segment) = Ok segment.
Proof. destruct segment. reflexivity. Qed.

Lemma load_segments_dicts (segments : list Segment) :
  forall idx, load_segments idx (map segment_dict segments) = Ok segments.
Proof.
  induction segments as [|segment rest IH]; intros idx; cbn [map load_segments].
  - reflexivity.
  - rewrite load_segment_dict. cbn [bind]. rewrite IH. reflexivity.
Qed.

Lemma load_segments_legacy (segments : list Segment) :
  forall idx,
    load_segments idx (map legacy_dict segments)
    = Ok (renumbered idx segments).
Proof.
  induction segments as [|segment rest IH]; intros idx;
    cbn [map load_segments renumbered].
  - reflexivity.
  - replace (load_segment idx (legacy_dict segment))
      with (Ok {| slide_id := slide_id segment;
                  chunk_index := chunk_index segment;
                  sequence := Z.of_nat idx + 1;
                  script_text := script_text segment;
                  note_bottom := note_bottom segment;
                  slide_image := slide_image segment;
                  audio_path := audio_path segment |})
      by reflexivity.
    cbn [bind]. rewrite IH. reflexivity.
Qed.

Lemma load_segment_default_sequence (idx : nat) (fields : list (str * json))
  (segment : Segment) :
  dict_get (py "sequence") fields = None ->
  load_segment idx (JObj fields) = Ok segment ->
  sequence segment = Z.of_nat idx + 1.
Proof.
  intros Hmissing Hload. unfold load_segment, get_default in Hload.
  rewrite Hmissing in Hload.
  repeat (cbn [bind py_int from_option id] in Hload;
          match type of Hload with
          | bind ?r _ = _ => destruct r; [|discriminate Hload]
          end).
  cbn [bind] in Hload. injection Hload as <-. reflexivity.
Qed.

Lemma load_written_manifest (cfg : Config) (now : str)
  (segments cache : list Segment) (w : World) :
  load_manifest_from_disk cfg
    {| world := write_manifest cfg now segments w; manifest_cache := cache |}
  = (Ok segments,
     {| world := write_manifest cfg now segments w;
        manifest_cache := segments |}).
Proof.
  unfold load_manifest_from_disk, write_manifest, write_file.
  cbn [world fs]. rewrite lookup_insert_eq.
  replace (get_default (manifest_payload cfg now segments) (py "segments")
             (JArr []))
    with (Ok (JArr (map segment_dict segments))) by reflexivity.
  cbn [bind iterate]. rewrite load_segments_dicts. reflexivity.
Qed.

(** C3. Loading the manifest that [_generate_audio] wrote gives back the
    same list of segments, every field and the order included; a stored
    segment without a [sequence] field gets its position in the stored list,
    counted from 1, as its sequence. *)
Theorem manifest_round_trip :
  (forall cfg now segments cache w,
      load_manifest_from_disk cfg
        {| world := write_manifest cfg now segments w;
           manifest_cache := cache |}
      = (Ok segments,
         {| world := write_manifest cfg now segments w;
            manifest_cache := segments |}))
  /\ (forall idx segments,
        load_segments idx (map segment_dict segments) = Ok segments)
  /\ (forall idx fields segment,
        dict_get (py "sequence") fields = None ->
        load_segment idx (JObj fields) = Ok segment ->
        sequence segment = Z.of_nat idx + 1)
  /\ (forall segments,
        load_segments 0 (map legacy_dict segments)
        = Ok (renumbered 0 segments)).
Proof.
  split; [|split; [|split]].
  - intros. apply load_written_manifest.
  - intros. apply load_segments_dicts.
  - exact load_segment_default_sequence.
  - intros. apply load_segments_legacy.
Qed.

End Manifest.

(** ** ConcurrentSynthesisScheduler *)

Section Synthesis.
Context `{Platform} `{TtsEngine}.

Lemma synthesize_existing (speaker : str) (segment : Segment) (w : World) :
  is_file w (audio_path segment) = true ->
  synthesize speaker segment w = (Ok tt, w).
Proof. unfold synthesize. now intros ->. Qed.

(** With every audio file present the pool leaves the world as it is,
    whatever the order in which the tasks are run. *)
Lemma run_pool_existing (speaker : str) (order : list Segment) (w : World) :
  (forall segment, In segment order -> is_file w (audio_path segment) = true) ->
  run_pool speaker order w = (Ok tt, w).
Proof.
  induction order as [|segment rest IH]; intros Hpresent; cbn [run_pool].
  - reflexivity.
  - rewrite synthesize_existing by (apply Hpresent; now left).
    rewrite IH by (intros s Hs; apply Hpresent; now right). reflexivity.
Qed.


End Synthesis.

(** ** VideoAssembler *)

Section Assembly.
Context `{FontRasterizer} `{Platform} `{TtsEngine} `{Encoder}.

Lemma concat_lines_written (cfg : Config) (segments : list Segment) :
  forall written,
    fold_left (fun written segment => written ++ concat_line cfg segment)
      segments written
    = written ++ concat (map (concat_line cfg) segments).
Proof.
  induction segments as [|segment rest IH]; intros written;
    cbn [fold_left map concat].
  - now rewrite app_nil_r.
  - rewrite IH. now rewrite <- app_assoc.
Qed.

(** A successful synthesis stage leaves the segments it built in the cache
    and in the manifest. *)
Lemma generate_audio_ok (cfg : Config) (now : str) (slides : list Slide)
  (slide_images : gmap Z str) (schedule : list Segment -> list Segment)
  (app app' : App) :
  generate_audio cfg now slides slide_images schedule app = (Ok tt, app') ->
  exists segments w,
    build_segments cfg slide_images slides = Ok segments
    /\ segments <> []
    /\ app' = {| world := write_manifest cfg now segments w;
                 manifest_cache := segments |}.
Proof.
  unfold generate_audio. intros Hstage.
  destruct slides as [|slide slides]; [discriminate|].
  destruct (bool_decide _); [discriminate|].
  destruct (build_segments cfg slide_images (slide :: slides))
    as [[|segment segments]|]; try discriminate.
  destruct (if prewarm_var cfg then _ else _) as [[[]|] w]; [|discriminate].
  destruct (run_pool _ _ _) as [[[]|] w']; [|discriminate].
  injection Hstage as <-. exists (segment :: segments), w'.
  repeat split. discriminate.
Qed.

(** C2, amended. The assembly stage does not sort: whatever list of
    segments it works on, once the clips are encoded the concatenation list
    consists of one line per segment, in the order of that list. After a
    successful synthesis stage, whatever the order in which its tasks
    completed, the assembly stage works on the segments in the order they
    were built, whether it takes them from the cache or reloads the
    manifest; their sequence numbers are 1, 2, ... in that order, so that
    the lines of the concatenation list are then in strictly ascending
    sequence order. *)
Theorem concat_list_in_sequence_order (cfg : Config) :
  (forall (app app' : App) (segments : list Segment) (w : World),
      assembly_segments cfg app = (Ok segments, app') ->
      encode_clips cfg segments (world app') = (Ok tt, w) ->
      assemble_video cfg app
      = (Ok tt,
         {| world := write_concat_list cfg segments w;
            manifest_cache := manifest_cache app' |})
      /\ fs (write_concat_list cfg segments w) !! concat_list_var cfg
         = Some (FText (concat (map (concat_line cfg) segments)))
      /\ length (map (concat_line cfg) segments) = length segments)
  /\ forall (now : str) (slides : list Slide) (slide_images : gmap Z str)
       (schedule : list Segment -> list Segment) (app app1 : App),
       generate_audio cfg now slides slide_images schedule app
       = (Ok tt, app1) ->
       exists segments,
         build_segments cfg slide_images slides = Ok segments
         /\ map sequence segments = consecutive 1 (length segments)
         /\ StronglySorted Z.lt (map sequence segments)
         /\ forall app2,
              app2 = app1
              \/ app2 = {| world := world app1; manifest_cache := [] |} ->
              assembly_segments cfg app2 = (Ok segments, app1)
              /\ forall w,
                   encode_clips cfg segments (world app1) = (Ok tt, w) ->
                   assemble_video cfg app2
                   = (Ok tt,
                      {| world := write_concat_list cfg segments w;
                         manifest_cache := segments |})
                   /\ fs (write_concat_list cfg segments w)
                        !! concat_list_var cfg
                      = Some (FText (concat (map (concat_line cfg) segments)))
                   /\ length (map (concat_line cfg) segments)
                      = length segments.
Proof.
  assert (Hlist : forall segments w,
             fs (write_concat_list cfg segments w) !! concat_list_var cfg
             = Some (FText (concat (map (concat_line cfg) segments)))).
  { intros segments w. unfold write_concat_list, write_file. cbn [fs].
    rewrite lookup_insert_eq, concat_lines_written. reflexivity. }
  split.
  - intros app app' segments w Hsegments Hclips. split; [|split].
    + unfold assemble_video. rewrite Hsegments, Hclips. reflexivity.
    + apply Hlist.
    + apply length_map.
  - intros now slides slide_images schedule app app1 Hstage.
    apply generate_audio_ok in Hstage as (segments & w0 & Hbuild & Hne & ->).
    exists segments.
    pose proof (build_segments_numbered _ _ _ _ Hbuild) as [Hseq _].
    split; [exact Hbuild|]. split; [exact Hseq|].
    split; [rewrite Hseq; apply consecutive_sorted|].
    intros app2 Happ2.
    assert (Hsegments :
              assembly_segments cfg app2
              = (Ok segments,
                 {| world := write_manifest cfg now segments w0;
                    manifest_cache := segments |})).
    { unfold assembly_segments.
      destruct Happ2 as [->| ->]; cbn [manifest_cache world].
      - destruct segments; [congruence|reflexivity].
      - rewrite load_written_manifest.
        destruct segments; [congruence|reflexivity]. }
    split; [exact Hsegments|].
    intros w Hclips. cbn [world] in Hclips. split; [|split].
    + unfold assemble_video. rewrite Hsegments. cbn [world].
      rewrite Hclips. reflexivity.
    + apply Hlist.
    + apply length_map.
Qed.

End Assembly.

(** ** The sample run *)

Section SampleRun.
#[local] Existing Instances
  Sample.rasterizer Sample.platform Sample.engine Sample.encoder.

Lemma manifest_round_trip_witness :
  dict_get (py "sequence") Sample.legacy_fields = None
  /\ load_segment 2 (JObj Sample.legacy_fields) = Ok Sample.legacy_segment
  /\ sequence Sample.legacy_segment = 3.
Proof.
  split; [reflexivity|]. split; [reflexivity|].
  apply (proj1 (proj2 (proj2 manifest_round_trip)) 2%nat Sample.legacy_fields);
    reflexivity.
Defined.


Lemma concat_list_in_sequence_order_witness :
  assemble_video Sample.cfg
    {| world := world Sample.app_after_synthesis; manifest_cache := [] |}
  = (Ok tt,
     {| world :=
          write_concat_list Sample.cfg
            (manifest_cache Sample.app_after_synthesis)
            Sample.world_after_clips;
        manifest_cache := manifest_cache Sample.app_after_synthesis |})
  /\ fs (write_concat_list Sample.cfg
           (manifest_cache Sample.app_after_synthesis) Sample.world_after_clips)
       !! concat_list_var Sample.cfg
     = Some (FText (py "file 'segments/001_01.mp4'" ++ [0x0A%N]
                    ++ py "file 'segments/001_02.mp4'" ++ [0x0A%N]
                    ++ py "file 'segments/002_01.mp4'" ++ [0x0A%N])).
Proof.
  destruct (proj2 (concat_list_in_sequence_order Sample.cfg)
              Sample.now Sample.slides Sample.slide_images
              (@rev Segment) Sample.app Sample.app_after_synthesis)
    as (segments & Hbuild & _ & _ & Hassembly).
  - vm_compute. reflexivity.
  - assert (Hsegments : segments = manifest_cache Sample.app_after_synthesis).
    { vm_compute in Hbuild. injection Hbuild as <-. vm_compute. reflexivity. }
    subst segments.
    destruct (Hassembly
                {| world := world Sample.app_after_synthesis;
                   manifest_cache := [] |} (or_intror eq_refl))
      as [_ Hclips].
    destruct (Hclips Sample.world_after_clips) as (Hvideo & Hlist & _).
    + vm_compute. reflexivity.
    + split; [exact Hvideo|]. rewrite Hlist. vm_compute. reflexivity.
Defined.

(** C2 as stated fails. The manifest on disk stores the three segments of
    the sample in the order of sequence 3, 2, 1 and the cache is empty: the
    assembly stage loads them in the stored order, succeeds, and writes the
    lines of the concatenation list in that order, which is not ascending
    sequence order. *)
Lemma concat_list_in_stored_order :
  exists segments,
    fst (assembly_segments Sample.cfg Sample.app_with_reordered_manifest)
    = Ok segments
    /\ map sequence segments = [3; 2; 1]
    /\ ~ StronglySorted Z.lt (map sequence segments)
    /\ fst (assemble_video Sample.cfg Sample.app_with_reordered_manifest)
       = Ok tt
    /\ fs (world
             (snd (assemble_video Sample.cfg
                     Sample.app_with_reordered_manifest)))
         !! concat_list_var Sample.cfg
       = Some (FText (py "file 'segments/002_01.mp4'" ++ [0x0A%N]
                      ++ py "file 'segments/001_02.mp4'" ++ [0x0A%N]
                      ++ py "file 'segments/001_01.mp4'" ++ [0x0A%N])).
Proof.
  eexists. split; [vm_compute; reflexivity|].
  split; [reflexivity|]. split; [|split; vm_compute; reflexivity].
  cbn [map sequence]. intros Hsorted.
  apply StronglySorted_inv in Hsorted as [_ Hbelow].
  apply List.Forall_inv in Hbelow. lia.
Qed.

End SampleRun.

(** ** Further properties of the string operations *)

Lemma lstrip_starts_clean (s : str) : starts_clean (PyStr.lstrip s).
Proof.
  induction s as [|c s IH]; cbn [PyStr.lstrip]; [exact I|].
  destruct (PyStr.isspace c) eqn:Hc; [exact IH|exact Hc].
Qed.

Lemma lstrip_clean (s : str) : starts_clean s -> PyStr.lstrip s = s.
Proof.
  destruct s as [|c s]; cbn [starts_clean PyStr.lstrip]; [reflexivity|].
  now intros ->.
Qed.

Lemma lstrip_snoc (s : str) (c : char) :
  PyStr.isspace c = false -> PyStr.lstrip (s ++ [c]) = PyStr.lstrip s ++ [c].
Proof.
  intros Hc. induction s as [|d s IH]; cbn [app PyStr.lstrip].
  - now rewrite Hc.
  - destruct (PyStr.isspace d); [exact IH|reflexivity].
Qed.

Lemma strip_clean (s : str) :
  starts_clean s -> starts_clean (rev s) -> PyStr.strip s = s.
Proof.
  intros Hhead Hlast. unfold PyStr.strip, PyStr.rstrip.
  rewrite (lstrip_clean s Hhead), (lstrip_clean (rev s) Hlast).
  apply rev_involutive.
Qed.

Lemma strip_starts_clean (s : str) :
  starts_clean (PyStr.strip s) /\ starts_clean (rev (PyStr.strip s)).
Proof.
  unfold PyStr.strip, PyStr.rstrip. rewrite rev_involutive.
  split; [|apply lstrip_starts_clean].
  pose proof (lstrip_starts_clean s) as Hhead.
  destruct (PyStr.lstrip s) as [|c t]; [exact I|].
  cbn [starts_clean] in Hhead. cbn [rev].
  rewrite (lstrip_snoc _ _ Hhead), rev_app_distr. exact Hhead.
Qed.

Lemma strip_strip (s : str) : PyStr.strip (PyStr.strip s) = PyStr.strip s.
Proof. apply strip_clean; apply strip_starts_clean. Qed.

Lemma Forall_lstrip (P : char -> Prop) (s : str) :
  Forall P s -> Forall P (PyStr.lstrip s).
Proof.
  induction 1 as [|c s Hc Hs IH]; cbn [PyStr.lstrip]; [constructor|].
  destruct (PyStr.isspace c); [exact IH|now constructor].
Qed.

Lemma Forall_strip (P : char -> Prop) (s : str) :
  Forall P s -> Forall P (PyStr.strip s).
Proof.
  intros Hs. unfold PyStr.strip, PyStr.rstrip.
  apply List.Forall_rev, Forall_lstrip, List.Forall_rev, Forall_lstrip, Hs.
Qed.

Lemma split_not_nil (sep : char) (s : str) : PyStr.split sep s <> [].
Proof.
  destruct s as [|c s]; cbn [PyStr.split]; [discriminate|].
  destruct (c =? sep)%N; [discriminate|].
  destruct (PyStr.split sep s); discriminate.
Qed.

Lemma Forall_split (P : char -> Prop) (sep : char) (s : str) :
  Forall P s -> Forall (Forall P) (PyStr.split sep s).
Proof.
  induction 1 as [|c s Hc Hs IH]; cbn [PyStr.split].
  - repeat constructor.
  - destruct (c =? sep)%N; [constructor; [constructor|exact IH]|].
    destruct (PyStr.split sep s) as [|piece pieces];
      [repeat constructor; exact Hc|].
    inversion IH; subst. constructor; [now constructor|assumption].
Qed.

(** No piece of a split contains the separator. *)
Lemma split_pieces_without_separator (sep : char) (s : str) :
  Forall (Forall (fun c => c <> sep)) (PyStr.split sep s).
Proof.
  induction s as [|c s IH]; cbn [PyStr.split]; [repeat constructor|].
  destruct (N.eqb_spec c sep) as [->|Hne];
    [constructor; [constructor|exact IH]|].
  destruct (PyStr.split sep s) as [|piece pieces];
    [repeat constructor; exact Hne|].
  inversion IH; subst. constructor; [now constructor|assumption].
Qed.

Lemma split_length (sep : char) (s : str) :
  length (PyStr.split sep s) = S (count_char sep s).
Proof.
  unfold count_char. induction s as [|c s IH]; cbn [PyStr.split List.filter];
    [reflexivity|].
  destruct (N.eqb_spec c sep) as [->|Hne].
  - rewrite N.eqb_refl. cbn [length]. now rewrite IH.
  - rewrite (proj2 (N.eqb_neq sep c)) by congruence.
    pose proof (split_not_nil sep s) as Hnil.
    destruct (PyStr.split sep s); [congruence|exact IH].
Qed.

Lemma split_at_separator (sep : char) (s rest : str) :
  Forall (fun c => c <> sep) s ->
  PyStr.split sep (s ++ sep :: rest) = s :: PyStr.split sep rest.
Proof.
  induction 1 as [|c s Hc Hs IH]; cbn [app PyStr.split].
  - now rewrite N.eqb_refl.
  - destruct (N.eqb_spec c sep) as [|_]; [contradiction|]. now rewrite IH.
Qed.

Lemma remove_char_absent (c : char) (s : str) :
  Forall (fun d => d <> c) s -> PyStr.remove_char c s = s.
Proof.
  unfold PyStr.remove_char.
  induction 1 as [|d s Hd Hs IH]; cbn [List.filter]; [reflexivity|].
  destruct (N.eqb_spec d c) as [|_]; [contradiction|]. cbn [negb].
  now rewrite IH.
Qed.

Lemma remove_char_removes (c : char) (s : str) :
  Forall (fun d => d <> c) (PyStr.remove_char c s).
Proof.
  unfold PyStr.remove_char. apply List.Forall_forall. intros d Hd.
  apply filter_In in Hd as [_ Hd]. apply negb_true_iff in Hd.
  now apply N.eqb_neq.
Qed.

Lemma count_char_remove_other (c d : char) (s : str) :
  c <> d -> count_char c (PyStr.remove_char d s) = count_char c s.
Proof.
  intros Hne. unfold count_char, PyStr.remove_char.
  induction s as [|e s IH]; cbn [List.filter]; [reflexivity|].
  destruct (N.eqb_spec e d) as [->|_]; cbn [negb List.filter].
  - destruct (N.eqb_spec c d) as [|_]; [contradiction|exact IH].
  - destruct (c =? e)%N; cbn [length]; now rewrite IH.
Qed.

(** ** Further properties of the segmenter *)

Lemma split_absent (sep : char) (s : str) :
  Forall (fun c => c <> sep) s -> PyStr.split sep s = [s].
Proof.
  intros Hs. apply split_without_separator, forallb_forall.
  intros c Hc. apply negb_true_iff, N.eqb_neq.
  exact (proj1 (List.Forall_forall _ _) Hs c Hc).
Qed.

Lemma truthy_not_nil (s : str) : PyStr.truthy s = true <-> s <> [].
Proof. destruct s; cbn [PyStr.truthy]; split; congruence. Qed.

(** Where a chunk of [split_script] comes from: the fallback, or a piece of
    the cleaned text that is not blank. *)
Lemma split_script_chunk_cases (text : option str) (chunk : str) :
  In chunk (split_script text) ->
  (kept_fragments text = [] /\ chunk = PyStr.strip (cleaned text))
  \/ (kept_fragments text <> []
      /\ exists piece,
           In piece (PyStr.split KUTEN (cleaned text))
           /\ PyStr.strip piece <> []
           /\ chunk = terminated (PyStr.strip piece)).
Proof.
  rewrite split_script_by_fragments.
  destruct (kept_fragments text) as [|fragment fragments] eqn:Hkept.
  - intros [<-|[]]. now left.
  - intros Hin. right. split; [discriminate|].
    apply in_map_iff in Hin as (f & <- & Hf).
    rewrite <- Hkept in Hf. unfold kept_fragments in Hf.
    apply filter_In in Hf as [Hf Htruthy].
    apply in_map_iff in Hf as (piece & <- & Hpiece).
    exists piece. repeat split; [exact Hpiece|now apply truthy_not_nil].
Qed.

Lemma terminated_cases (fragment : str) :
  (PyStr.endswith_any fragment TERMINALS = true
   /\ terminated fragment = fragment)
  \/ (PyStr.endswith_any fragment TERMINALS = false
      /\ terminated fragment = fragment ++ [KUTEN]).
Proof.
  unfold terminated.
  destruct (PyStr.endswith_any fragment TERMINALS); [now left|now right].
Qed.

(** X1. [split_script] returns at least one chunk, and at most one more
    than the text has delimiters. *)
Theorem split_script_chunk_count (text : option str) :
  (1 <= length (split_script text)
   <= S (count_char KUTEN (default [] text)))%nat.
Proof.
  rewrite split_script_by_fragments.
  assert (Hkept : (length (kept_fragments text)
                   <= S (count_char KUTEN (default [] text)))%nat).
  { unfold kept_fragments.
    etransitivity; [apply List.filter_length_le|].
    rewrite length_map, split_length. unfold cleaned.
    rewrite count_char_remove_other by discriminate. reflexivity. }
  destruct (kept_fragments text) as [|fragment fragments].
  - cbn [length]. lia.
  - rewrite length_map. cbn [length] in *. lia.
Qed.

Lemma split_script_chunk_strip (text : option str) (chunk : str) :
  In chunk (split_script text) -> PyStr.strip chunk = chunk.
Proof.
  intros Hin.
  apply split_script_chunk_cases in Hin
    as [[_ ->]|(_ & piece & Hpiece & Hne & ->)]; [apply strip_strip|].
  destruct (strip_starts_clean piece) as [Hhead Hlast].
  destruct (terminated_cases (PyStr.strip piece)) as [[_ ->]|[_ ->]];
    [apply strip_strip|].
  apply strip_clean.
  - destruct (PyStr.strip piece); [congruence|exact Hhead].
  - rewrite rev_app_distr. reflexivity.
Qed.

(** X2. Every chunk that [split_script] returns is trimmed, that is, has no
    white space at either end, and contains no carriage return. *)
Theorem split_script_chunks_trimmed (text : option str) (chunk : str) :
  In chunk (split_script text) ->
  PyStr.strip chunk = chunk /\ ~ In 0x0D%N chunk.
Proof.
  intros Hin. split; [exact (split_script_chunk_strip text chunk Hin)|].
  assert (Hclean : Forall (fun c => c <> 0x0D%N) (cleaned text))
    by apply remove_char_removes.
  apply split_script_chunk_cases in Hin
    as [[_ ->]|(_ & piece & Hpiece & Hne & ->)].
  - intros Hcr. apply Forall_strip in Hclean.
    exact (proj1 (List.Forall_forall _ _) Hclean _ Hcr eq_refl).
  - assert (Hfragment : Forall (fun c => c <> 0x0D%N) (PyStr.strip piece)).
    { apply Forall_strip.
      exact (proj1 (List.Forall_forall _ _)
               (Forall_split _ KUTEN _ Hclean) _ Hpiece). }
    destruct (terminated_cases (PyStr.strip piece)) as [[_ ->]|[_ ->]].
    + intros Hcr.
      exact (proj1 (List.Forall_forall _ _) Hfragment _ Hcr eq_refl).
    + intros Hcr. apply in_app_or in Hcr as [Hcr|[Hcr|[]]]; [|discriminate].
      exact (proj1 (List.Forall_forall _ _) Hfragment _ Hcr eq_refl).
Qed.

Lemma split_script_chunks_trimmed_witness :
  PyStr.strip (py "B。") = py "B。" /\ ~ In 0x0D%N (py "B。").
Proof.
  apply (split_script_chunks_trimmed (Some (py " A。 B "))).
  right. left. reflexivity.
Defined.

Lemma in_removelast (c : char) (s : str) : In c (removelast s) -> In c s.
Proof.
  induction s as [|d s IH]; cbn [removelast]; [tauto|].
  destruct s as [|e s]; [intros []|].
  intros [<-|Hin]; [now left|right; now apply IH].
Qed.

(** X3. When the text has a fragment that is not blank, every chunk is
    non-empty, ends in one of the terminal marks, and has no delimiter
    before its last character. *)
Theorem split_script_chunks_end_in_mark (text : option str) (chunk : str) :
  kept_fragments text <> [] ->
  In chunk (split_script text) ->
  chunk <> []
  /\ PyStr.endswith_any chunk TERMINALS = true
  /\ ~ In KUTEN (removelast chunk).
Proof.
  intros Hkept Hin.
  apply split_script_chunk_cases in Hin
    as [[Hnone _]|(_ & piece & Hpiece & Hne & ->)]; [contradiction|].
  assert (Hfragment : Forall (fun c => c <> KUTEN) (PyStr.strip piece)).
  { apply Forall_strip.
    exact (proj1 (List.Forall_forall _ _)
             (split_pieces_without_separator KUTEN _) _ Hpiece). }
  destruct (terminated_cases (PyStr.strip piece)) as [[Hends ->]|[_ ->]].
  - split; [exact Hne|]. split; [exact Hends|].
    intros Hk. apply in_removelast in Hk.
    exact (proj1 (List.Forall_forall _ _) Hfragment _ Hk eq_refl).
  - split; [now destruct (PyStr.strip piece)|]. split.
    + apply endswith_terminals. exists KUTEN.
      split; [apply last_snoc|now left].
    + rewrite removelast_last. intros Hk.
      exact (proj1 (List.Forall_forall _ _) Hfragment _ Hk eq_refl).
Qed.

Lemma split_script_chunks_end_in_mark_witness :
  py "Done。" <> []
  /\ PyStr.endswith_any (py "Done。") TERMINALS = true
  /\ ~ In KUTEN (removelast (py "Done。")).
Proof.
  apply (split_script_chunks_end_in_mark (Some (py "Hello! 。Done"))).
  - discriminate.
  - right. left. reflexivity.
Defined.

(** X4. Segmenting again a chunk that the loop of [split_script] produced
    gives that chunk and nothing else. *)
Theorem split_script_of_chunk (text : option str) (chunk : str) :
  In chunk (split_script_parts text) ->
  split_script (Some chunk) = [chunk].
Proof.
  unfold split_script_parts. rewrite split_script_loop. cbn [app].
  intros Hin. apply in_map_iff in Hin as (fragment & <- & Hin).
  apply filter_In in Hin as [Hin Htruthy].
  apply in_map_iff in Hin as (piece & <- & Hpiece).
  set (fragment := PyStr.strip piece) in *.
  assert (Hcr : Forall (fun c => c <> 0x0D%N) fragment).
  { apply Forall_strip.
    exact (proj1 (List.Forall_forall _ _)
             (Forall_split _ KUTEN _ (remove_char_removes _ _)) _ Hpiece). }
  assert (Hk : Forall (fun c => c <> KUTEN) fragment).
  { apply Forall_strip.
    exact (proj1 (List.Forall_forall _ _)
             (split_pieces_without_separator KUTEN _) _ Hpiece). }
  assert (Hstrip : PyStr.strip fragment = fragment) by apply strip_strip.
  rewrite split_script_by_fragments. unfold kept_fragments, cleaned.
  cbn [default from_option id].
  destruct (terminated_cases fragment) as [[Hends Hfragment]|[Hends Hfragment]];
    rewrite Hfragment.
  - rewrite (remove_char_absent _ _ Hcr), (split_absent _ _ Hk).
    cbn [map List.filter]. rewrite Hstrip, Htruthy. cbn [map].
    now rewrite Hfragment.
  - rewrite remove_char_absent
      by (apply Forall_app; split; [exact Hcr|now repeat constructor]).
    rewrite (split_at_separator _ _ [] Hk).
    cbn [PyStr.split map List.filter]. rewrite Hstrip, Htruthy.
    cbn [List.filter PyStr.strip PyStr.rstrip PyStr.lstrip rev PyStr.truthy
         map].
    now rewrite Hfragment.
Qed.

Lemma split_script_of_chunk_witness :
  split_script (Some (py "B。")) = [py "B。"].
Proof.
  apply (split_script_of_chunk (Some (py "A。B"))).
  right. left. reflexivity.
Defined.

(** ** Further properties of the wrapping *)

Lemma re_split_newlines_concat (s : str) :
  forall in_run,
    concat (re_split_newlines in_run s) = PyStr.remove_char 0x0A%N s.
Proof.
  unfold PyStr.remove_char.
  induction s as [|c s IH]; intros in_run;
    cbn [re_split_newlines List.filter]; [reflexivity|].
  destruct (c =? 0x0A)%N; cbn [negb].
  - destruct in_run; cbn [concat app]; apply IH.
  - rewrite <- (IH false).
    destruct (re_split_newlines false s); reflexivity.
Qed.

Lemma re_split_newlines_pieces (s : str) :
  forall in_run,
    Forall (Forall (fun c => c <> 0x0A%N)) (re_split_newlines in_run s).
Proof.
  induction s as [|c s IH]; intros in_run; cbn [re_split_newlines];
    [repeat constructor|].
  destruct (N.eqb_spec c 0x0A%N) as [->|Hne].
  - destruct in_run; [apply IH|constructor; [constructor|apply IH]].
  - specialize (IH false).
    destruct (re_split_newlines false s) as [|piece pieces];
      [repeat constructor; exact Hne|].
    inversion IH; subst. constructor; [now constructor|assumption].
Qed.

Lemma re_split_newlines_absent (s : str) :
  Forall (fun c => c <> 0x0A%N) s -> re_split_newlines false s = [s].
Proof.
  induction 1 as [|c s Hc Hs IH]; cbn [re_split_newlines]; [reflexivity|].
  destruct (N.eqb_spec c 0x0A%N) as [|_]; [contradiction|]. now rewrite IH.
Qed.

Section WrappingContent.
Context `{FontRasterizer}.
Variables (font : Font) (max_width : Z).

Lemma wrap_chars_concat (paragraph : str) :
  forall lines current,
    concat (fst (fold_left (wrap_char font max_width) paragraph
                   (lines, current)))
    ++ snd (fold_left (wrap_char font max_width) paragraph (lines, current))
    = concat lines ++ current ++ paragraph.
Proof.
  induction paragraph as [|char paragraph IH]; intros lines current;
    cbn [fold_left fst snd].
  - now rewrite app_nil_r.
  - unfold wrap_char at 2 4.
    destruct (Qle_bool _ _ || negb (PyStr.truthy current)); rewrite IH.
    + now rewrite <- app_assoc.
    + rewrite concat_app. cbn [concat]. now rewrite app_nil_r, <- !app_assoc.
Qed.

Lemma wrap_paragraph_concat (lines : list str) (paragraph : str) :
  concat (wrap_paragraph font max_width lines paragraph)
  = concat lines ++ paragraph.
Proof.
  unfold wrap_paragraph.
  destruct (PyStr.truthy paragraph) eqn:Htruthy; cbn [negb].
  2: { destruct paragraph; [now rewrite app_nil_r|discriminate]. }
  pose proof (wrap_chars_concat paragraph lines []) as Hfold.
  destruct (fold_left _ _ _) as [lines' current]. cbn [fst snd app] in Hfold.
  rewrite <- Hfold. destruct current as [|c current]; cbn [PyStr.truthy].
  - now rewrite app_nil_r.
  - rewrite concat_app. cbn [concat]. now rewrite app_nil_r.
Qed.

Lemma wrap_paragraphs_concat (paragraphs : list str) :
  forall lines,
    concat (fold_left (wrap_paragraph font max_width) paragraphs lines)
    = concat lines ++ concat paragraphs.
Proof.
  induction paragraphs as [|paragraph paragraphs IH]; intros lines;
    cbn [fold_left concat].
  - now rewrite app_nil_r.
  - now rewrite IH, wrap_paragraph_concat, <- app_assoc.
Qed.

(** X5. Wrapping loses no character and changes no order: the lines put
    end to end are the trimmed text without its line feeds. *)
Theorem wrap_text_lines_concat (text : str) :
  concat (wrap_text_lines text font max_width)
  = PyStr.remove_char 0x0A%N (PyStr.strip text).
Proof.
  unfold wrap_text_lines.
  destruct (PyStr.truthy text) eqn:Htruthy; cbn [negb].
  2: { destruct text; [reflexivity|discriminate]. }
  pose proof (wrap_paragraphs_concat
                (re_split_newlines false (PyStr.strip text)) []) as Hfold.
  rewrite re_split_newlines_concat in Hfold. cbn [concat app] in Hfold.
  rewrite <- Hfold. now destruct (fold_left _ _ _).
Qed.

(** A line that has been committed or is being grown holds characters that
    satisfy [P] only, and a committed line is not empty. *)
Lemma wrap_chars_keep (P : char -> Prop) (paragraph : str) :
  forall lines current,
    Forall (fun line => line <> [] /\ Forall P line) lines ->
    Forall P current ->
    Forall P paragraph ->
    Forall (fun line => line <> [] /\ Forall P line)
      (fst (fold_left (wrap_char font max_width) paragraph (lines, current)))
    /\ Forall P
         (snd (fold_left (wrap_char font max_width) paragraph
                 (lines, current))).
Proof.
  induction paragraph as [|char paragraph IH]; intros lines current Hl Hc Hp;
    cbn [fold_left fst snd]; [tauto|].
  inversion Hp as [|? ? Hchar Hrest]; subst. unfold wrap_char at 2 4.
  destruct (Qle_bool _ _); cbn [orb].
  - apply IH; [exact Hl| |exact Hrest].
    apply Forall_app. split; [exact Hc|now repeat constructor].
  - destruct current as [|d current]; cbn [PyStr.truthy negb].
    + apply IH; [exact Hl|now repeat constructor|exact Hrest].
    + apply IH; [|now repeat constructor|exact Hrest].
      apply Forall_app. split; [exact Hl|].
      constructor; [|constructor]. split; [discriminate|exact Hc].
Qed.

Lemma wrap_paragraph_keep (P : char -> Prop) (lines : list str)
  (paragraph : str) :
  Forall (fun line => line <> [] /\ Forall P line) lines ->
  Forall P paragraph ->
  Forall (fun line => line <> [] /\ Forall P line)
    (wrap_paragraph font max_width lines paragraph).
Proof.
  intros Hl Hp. unfold wrap_paragraph.
  destruct (negb (PyStr.truthy paragraph)); [exact Hl|].
  destruct (wrap_chars_keep P paragraph lines [] Hl (List.Forall_nil _) Hp)
    as [Hl' Hc'].
  destruct (fold_left _ _ _) as [lines' current]. cbn [fst snd] in *.
  destruct current as [|c current]; cbn [PyStr.truthy]; [exact Hl'|].
  apply Forall_app. split; [exact Hl'|].
  constructor; [|constructor]. split; [discriminate|exact Hc'].
Qed.

Lemma wrap_paragraphs_keep (P : char -> Prop) (paragraphs : list str) :
  forall lines,
    Forall (fun line => line <> [] /\ Forall P line) lines ->
    Forall (Forall P) paragraphs ->
    Forall (fun line => line <> [] /\ Forall P line)
      (fold_left (wrap_paragraph font max_width) paragraphs lines).
Proof.
  induction paragraphs as [|paragraph paragraphs IH]; intros lines Hl Hp;
    cbn [fold_left]; [exact Hl|].
  inversion Hp; subst. apply IH; [|assumption].
  now apply wrap_paragraph_keep.
Qed.

(** X6. For a text that is not blank, [wrap_text_lines] returns at least
    one line, no line is empty, and no line contains a line feed. *)
Theorem wrap_text_lines_nonempty (text : str) :
  PyStr.strip text <> [] ->
  wrap_text_lines text font max_width <> []
  /\ Forall (fun line => line <> [] /\ ~ In 0x0A%N line)
       (wrap_text_lines text font max_width).
Proof.
  intros Hblank.
  assert (Hconcat : concat (wrap_text_lines text font max_width)
                    = PyStr.remove_char 0x0A%N (PyStr.strip text)).
  { unfold wrap_text_lines.
    destruct (PyStr.truthy text) eqn:Htruthy; cbn [negb];
      [|now destruct text].
    pose proof (wrap_paragraphs_concat
                  (re_split_newlines false (PyStr.strip text)) []) as Hfold.
    rewrite re_split_newlines_concat in Hfold. cbn [concat app] in Hfold.
    rewrite <- Hfold. now destruct (fold_left _ _ _). }
  assert (Hchars : PyStr.remove_char 0x0A%N (PyStr.strip text) <> []).
  { destruct (strip_starts_clean text) as [Hhead _].
    destruct (PyStr.strip text) as [|c rest]; [congruence|].
    cbn [starts_clean] in Hhead. unfold PyStr.remove_char. cbn [List.filter].
    destruct (N.eqb_spec c 0x0A%N) as [->|_];
      [discriminate Hhead|discriminate]. }
  unfold wrap_text_lines in *.
  destruct (negb (PyStr.truthy text)); [cbn [concat] in Hconcat; congruence|].
  pose proof (wrap_paragraphs_keep (fun c => c <> 0x0A%N)
                (re_split_newlines false (PyStr.strip text)) []
                (List.Forall_nil _) (re_split_newlines_pieces _ _)) as Hkeep.
  destruct (fold_left _ _ _) as [|line lines];
    [cbn [concat app] in Hconcat; congruence|].
  split; [discriminate|].
  eapply Forall_impl; [exact Hkeep|].
  intros l [Hne Hl]. split; [exact Hne|].
  intros Hin. exact (proj1 (List.Forall_forall _ _) Hl _ Hin eq_refl).
Qed.

End WrappingContent.

Lemma wrap_text_lines_nonempty_witness :
  wrap_text_lines (H := Sample.rasterizer) (py " narration ") 10 25 <> []
  /\ Forall (fun line => line <> [] /\ ~ In 0x0A%N line)
       (wrap_text_lines (H := Sample.rasterizer) (py " narration ") 10 25).
Proof.
  apply (wrap_text_lines_nonempty (H := Sample.rasterizer) 10 25
           (py " narration ")).
  discriminate.
Defined.

Section WrappingGreedy.
Context `{FontRasterizer}.
Variables (font : Font) (max_width : Z).

#[local] Abbreviation needed := (breaks_needed font max_width).

Lemma breaks_needed_grow (lines : list str) (current : str) (c : char) :
  current <> [] ->
  needed (lines ++ [current]) -> needed (lines ++ [current ++ [c]]).
Proof.
  intros Hne. induction lines as [|line lines IH]; [intros _; exact I|].
  destruct lines as [|next lines].
  - destruct current as [|d current]; [congruence|]. intros Hn. exact Hn.
  - intros [Hpair Hrest]. split; [exact Hpair|]. apply IH, Hrest.
Qed.

Lemma breaks_needed_break (lines : list str) (current : str) (c : char) :
  ~ (textlength font (current ++ [c]) <= inject_Z max_width)%Q ->
  needed (lines ++ [current]) -> needed ((lines ++ [current]) ++ [[c]]).
Proof.
  intros Hwide. induction lines as [|line lines IH].
  - intros _. split; [exact Hwide|exact I].
  - destruct lines as [|next lines].
    + intros [Hpair _]. split; [exact Hpair|]. split; [exact Hwide|exact I].
    + intros [Hpair Hrest]. split; [exact Hpair|]. apply IH, Hrest.
Qed.

Lemma wrap_chars_needed (paragraph : str) :
  forall lines current,
    needed (lines ++ [current]) ->
    (current = [] -> lines = []) ->
    needed
      (fst (fold_left (wrap_char font max_width) paragraph (lines, current))
       ++ [snd (fold_left (wrap_char font max_width) paragraph
                  (lines, current))])
    /\ (snd (fold_left (wrap_char font max_width) paragraph (lines, current))
        = []
        -> fst (fold_left (wrap_char font max_width) paragraph
                  (lines, current))
           = []).
Proof.
  induction paragraph as [|char paragraph IH]; intros lines current Hn Hempty;
    cbn [fold_left fst snd]; [tauto|].
  unfold wrap_char at 2 4 6 8.
  destruct (Qle_bool _ _) eqn:Hwidth; cbn [orb].
  - apply IH.
    + destruct current as [|d current].
      * rewrite (Hempty eq_refl). exact I.
      * now apply breaks_needed_grow.
    + intros Hnil. now apply app_eq_nil in Hnil as [_ Hnil].
  - destruct current as [|d current]; cbn [PyStr.truthy negb].
    + apply IH; [rewrite (Hempty eq_refl); exact I|discriminate].
    + apply IH; [|discriminate].
      apply breaks_needed_break; [|exact Hn].
      intros Hle. apply Qle_bool_iff in Hle. congruence.
Qed.

(** X7. With a text whose trimmed form has no line feed, every line break
    that [wrap_text_lines] makes is needed: the first character of each
    following line did not fit at the end of the line before it. *)
Theorem wrap_text_lines_breaks_needed (text : str) :
  ~ In 0x0A%N (PyStr.strip text) ->
  breaks_needed font max_width (wrap_text_lines text font max_width).
Proof.
  intros Hfeed. unfold wrap_text_lines.
  destruct (negb (PyStr.truthy text)); [exact I|].
  rewrite re_split_newlines_absent.
  2: { apply List.Forall_forall. intros c Hc ->. exact (Hfeed Hc). }
  cbn [fold_left]. unfold wrap_paragraph.
  destruct (negb (PyStr.truthy (PyStr.strip text))); [exact I|].
  destruct (wrap_chars_needed (PyStr.strip text) [] [] I (fun _ => eq_refl))
    as [Hn Hnil].
  destruct (fold_left _ _ _) as [lines current]. cbn [fst snd] in *.
  destruct current as [|c current]; cbn [PyStr.truthy].
  - rewrite (Hnil eq_refl). exact I.
  - destruct lines; exact Hn.
Qed.

End WrappingGreedy.

Lemma wrap_text_lines_breaks_needed_witness :
  breaks_needed (H := Sample.rasterizer) 10 25
    (wrap_text_lines (H := Sample.rasterizer) (py "narration") 10 25).
Proof.
  apply (wrap_text_lines_breaks_needed (H := Sample.rasterizer) 10 25
           (py "narration")).
  vm_compute. intuition discriminate.
Defined.

(** ** Further properties of the search *)

Lemma descending_last_least (sizes : list Z) (least : Z) :
  StronglySorted Z.gt sizes -> last sizes = Some least ->
  forall size, In size sizes -> least <= size.
Proof.
  induction 1 as [|first rest Hrest IH Hbelow]; [discriminate|].
  intros Hlast size Hin. rewrite List.Forall_forall in Hbelow.
  destruct rest as [|next rest].
  - cbn in Hlast. injection Hlast as <-. destruct Hin as [<-|[]]. lia.
  - assert (Hleast : In least (next :: rest)).
    { apply list_elem_of_In, list_elem_of_lookup.
      exists (length rest). rewrite <- Hlast. cbn [last].
      now rewrite last_lookup. }
    destruct Hin as [<-|Hin]; [specialize (Hbelow _ Hleast); lia|].
    now apply IH.
Qed.

(** X8. A taller box never gives a smaller font: for
    [min_size <= max_size] and a font that loads at every candidate size,
    the size chosen for a box is at most the size chosen for a box of the
    same width that is at least as high. *)
Theorem fit_text_to_box_taller_box `{FontRasterizer}
  (text font_path : str) (x0 y0 x1 y1 y1' max_size min_size : Z) :
  min_size <= max_size ->
  candidates_load font_path max_size min_size ->
  y1 <= y1' ->
  exists size size' l l',
    layout_at text font_path (x1 - x0) size = Ok l
    /\ layout_at text font_path (x1 - x0) size' = Ok l'
    /\ fit_text_to_box text font_path (x0, y0, x1, y1) max_size min_size
       = Ok l
    /\ fit_text_to_box text font_path (x0, y0, x1, y1') max_size min_size
       = Ok l'
    /\ size <= size'.
Proof.
  intros Hsizes Hload Hheight.
  set (sizes := range_down2 max_size (min_size - 1)).
  assert (Hne : sizes <> []).
  { unfold sizes. rewrite range_down2_nil. lia. }
  pose proof (range_down2_sorted max_size (min_size - 1)) as Hsorted.
  fold sizes in Hsorted.
  destruct (fit_loop_descending text font_path (x1 - x0) (y1 - y0) sizes
              None Hsorted Hne Hload) as (size & l & Hin & Hl & Hloop & Hcase).
  destruct (fit_loop_descending text font_path (x1 - x0) (y1' - y0) sizes
              None Hsorted Hne Hload)
    as (size' & l' & Hin' & Hl' & Hloop' & Hcase').
  exists size, size', l, l'. unfold fit_text_to_box. fold sizes.
  rewrite Hloop, Hloop'. split; [exact Hl|]. split; [exact Hl'|].
  split; [reflexivity|]. split; [reflexivity|].
  destruct Hcase as [[Hfit _]|[_ Hlast]].
  - assert (Hfit' : fits text font_path (x1 - x0) (y1' - y0) size).
    { destruct Hfit as (k & Hk & Hle). exists k. split; [exact Hk|lia]. }
    destruct Hcase' as [[_ Hlarger]|[Hnone _]].
    + destruct (Z.le_gt_cases size size') as [|Hlt]; [assumption|].
      exfalso. exact (Hlarger size Hin Hlt Hfit').
    + exfalso. exact (Hnone size Hin Hfit').
  - exact (descending_last_least sizes size Hsorted Hlast size' Hin').
Qed.

Lemma fit_text_to_box_taller_box_witness :
  exists size size' l l',
    layout_at (H := Sample.rasterizer)
      (py "narration") (py "font.ttf") (100 - 0) size = Ok l
    /\ layout_at (H := Sample.rasterizer)
         (py "narration") (py "font.ttf") (100 - 0) size' = Ok l'
    /\ fit_text_to_box (H := Sample.rasterizer)
         (py "narration") (py "font.ttf") (0, 0, 100, 50) 40 10
       = Ok l
    /\ fit_text_to_box (H := Sample.rasterizer)
         (py "narration") (py "font.ttf") (0, 0, 100, 90) 40 10
       = Ok l'
    /\ size <= size'.
Proof.
  apply (fit_text_to_box_taller_box (H := Sample.rasterizer)
           (py "narration") (py "font.ttf") 0 0 100 50 90 40 10);
    [lia|intros size _; eexists; reflexivity|lia].
Defined.

(** ** Properties of [draw_text_block] *)

Lemma inject_Z_minus (x y : Z) :
  inject_Z (x - y) = (inject_Z x - inject_Z y)%Q.
Proof.
  unfold Z.sub, Qminus. now rewrite inject_Z_plus, inject_Z_opp.
Qed.

Section Drawing.
Context `{FontRasterizer}.
Variables (font : Font) (x0 y0 x1 y1 : Z) (color : Z * Z * Z) (align : str).
Variables (line_height line_spacing : Z).

#[local] Abbreviation block_height lines :=
  (line_height * Z.of_nat (length lines)
   + line_spacing * Z.max 0 (Z.of_nat (length lines) - 1)).

Lemma draw_lines_inside (lo hi : Q) (lines : list str) :
  0 <= line_height -> 0 <= line_spacing ->
  forall y : Q,
    (lo <= y)%Q ->
    (y + inject_Z (block_height lines) <= hi)%Q ->
    Forall (fun call =>
              (lo <= call_y call)%Q
              /\ (call_y call + inject_Z line_height <= hi)%Q)
      (draw_lines lines font x0 (x1 - x0) color align line_height
         line_spacing y).
Proof.
  intros Hheight Hspacing.
  induction lines as [|line rest IH]; intros y Hlo Hhi; cbn [draw_lines];
    constructor.
  - cbn [call_y]. split; [exact Hlo|].
    assert (Hz : line_height <= block_height (line :: rest))
      by (cbn [length]; nia).
    rewrite Zle_Qle in Hz. lra.
  - destruct rest as [|next rest]; [constructor|].
    assert (Hz : block_height (line :: next :: rest)
                 = line_height + line_spacing + block_height (next :: rest))
      by (cbn [length]; nia).
    rewrite Hz, !inject_Z_plus in Hhi.
    assert (Hstep : 0 <= line_height + line_spacing) by lia.
    rewrite Zle_Qle in Hstep. rewrite inject_Z_plus in Hstep.
    change (inject_Z 0) with 0%Q in Hstep.
    apply IH; rewrite !inject_Z_plus; lra.
Qed.

(** X9. If the block of lines is no higher than the box and the line
    metrics are not negative, [draw_text_block] places every line between
    the top and the bottom of the box, with either alignment. *)
Theorem draw_text_block_inside_vertically (lines : list str) :
  0 <= line_height -> 0 <= line_spacing ->
  block_height lines <= y1 - y0 ->
  Forall (fun call =>
            (inject_Z y0 <= call_y call)%Q
            /\ (call_y call + inject_Z line_height <= inject_Z y1)%Q)
    (draw_text_block lines font (x0, y0, x1, y1) color align line_height
       line_spacing).
Proof.
  intros Hheight Hspacing Hfits. unfold draw_text_block.
  destruct lines as [|line rest] eqn:Hlines; [constructor|].
  rewrite <- Hlines in Hfits |- *.
  rewrite Zle_Qle in Hfits. rewrite inject_Z_minus in Hfits.
  apply draw_lines_inside; try assumption;
    destruct (centered align); rewrite ?inject_Z_minus;
    unfold Qdiv; change (/ 2)%Q with (1 # 2)%Q; lra.
Qed.

Lemma draw_lines_texts (lines : list str) :
  forall y : Q,
    map call_text
      (draw_lines lines font x0 (x1 - x0) color align line_height
         line_spacing y)
    = lines.
Proof.
  induction lines as [|line rest IH]; intros y; cbn [draw_lines map call_text];
    [reflexivity|].
  now rewrite IH.
Qed.

Lemma draw_lines_across (lines : list str) :
  forall y : Q,
    Forall (fun call =>
              call_font call = font
              /\ call_fill call = color
              /\ (call_x call
                  == if centered align
                     then inject_Z x0
                          + (inject_Z (x1 - x0)
                             - textlength font (call_text call)) / 2
                     else inject_Z x0)%Q)
      (draw_lines lines font x0 (x1 - x0) color align line_height
         line_spacing y).
Proof.
  induction lines as [|line rest IH]; intros y; cbn [draw_lines];
    constructor; [|apply IH].
  cbn [call_font call_fill call_x call_text].
  split; [reflexivity|]. split; [reflexivity|].
  destruct (centered align); reflexivity.
Qed.

(** X10. [draw_text_block] draws every line once, in order, with the given
    font and colour. A centred line has equal margins on its left and
    right, and lies between the sides of the box when it is no wider than
    the box; a line of any other alignment starts at the left side. *)
Theorem draw_text_block_across (lines : list str) :
  let calls :=
    draw_text_block lines font (x0, y0, x1, y1) color align line_height
      line_spacing in
  map call_text calls = lines
  /\ Forall (fun call =>
               call_font call = font
               /\ call_fill call = color
               /\ (if centered align
                   then
                     (call_x call - inject_Z x0
                      == inject_Z x1
                         - (call_x call + textlength font (call_text call)))%Q
                     /\ ((textlength font (call_text call)
                          <= inject_Z (x1 - x0))%Q ->
                         (inject_Z x0 <= call_x call)%Q
                         /\ (call_x call + textlength font (call_text call)
                             <= inject_Z x1)%Q)
                   else (call_x call == inject_Z x0)%Q))
       calls.
Proof.
  cbv zeta. unfold draw_text_block.
  destruct lines as [|line rest] eqn:Hlines;
    [split; [reflexivity|constructor]|].
  rewrite <- Hlines. split; [apply draw_lines_texts|].
  eapply Forall_impl; [apply draw_lines_across|].
  intros call (Hfont & Hfill & Hx).
  split; [exact Hfont|]. split; [exact Hfill|].
  destruct (centered align); [|exact Hx].
  rewrite inject_Z_minus in *. unfold Qdiv in Hx.
  change (/ 2)%Q with (1 # 2)%Q in Hx. split; [lra|]. intros Hwide. lra.
Qed.

End Drawing.

Lemma draw_text_block_inside_vertically_witness :
  Forall (fun call =>
            (inject_Z 847 <= call_y call)%Q
            /\ (call_y call + inject_Z 40 <= inject_Z 1009)%Q)
    (draw_text_block (H := Sample.rasterizer) [py "narra"; py "tion"] 40
       SCRIPT_BOX (255, 255, 255) (py "center") 40 8).
Proof.
  apply (draw_text_block_inside_vertically (H := Sample.rasterizer)
           40 88 847 1850 1009 (255, 255, 255) (py "center") 40 8
           [py "narra"; py "tion"]);
    cbn [length]; lia.
Defined.

Lemma draw_text_block_across_witness :
  map call_text
    (draw_text_block (H := Sample.rasterizer) [py "narra"; py "tion"] 40
       SCRIPT_BOX (255, 255, 255) (py "center") 40 8)
  = [py "narra"; py "tion"].
Proof.
  exact (proj1 (draw_text_block_across (H := Sample.rasterizer)
                  40 88 847 1850 1009 (255, 255, 255) (py "center") 40 8
                  [py "narra"; py "tion"])).
Defined.

(** ** Chunk names *)

Lemma digits_uint_digits (d : Decimal.uint) : digits_uint (uint_digits d) = d.
Proof. induction d; cbn; now f_equal. Qed.

Lemma digits_uint_zeros (k : nat) (s : str) :
  digits_uint (repeat 0x30%N k ++ s) = Nat.iter k Decimal.D0 (digits_uint s).
Proof. induction k as [|k IH]; cbn; [reflexivity|now f_equal]. Qed.

Lemma of_uint_zeros (k : nat) (d : Decimal.uint) :
  N.of_uint (Nat.iter k Decimal.D0 d) = N.of_uint d.
Proof. induction k as [|k IH]; [reflexivity|exact IH]. Qed.

Lemma parse_d_unsigned (k : nat) (d : Decimal.uint) :
  parse_d (repeat 0x30%N k ++ uint_digits d)
  = Z.of_N (N.of_uint (digits_uint (repeat 0x30%N k ++ uint_digits d))).
Proof. destruct k; [destruct d|]; reflexivity. Qed.

(** Reading back the text of a formatted integer gives the integer. *)
Lemma parse_format_d (width : nat) (n : Z) : parse_d (format_d width n) = n.
Proof.
  unfold format_d. destruct (Z.ltb_spec n 0) as [Hneg|Hpos]; cbn [app length].
  - unfold parse_d. cbn [N.eqb Pos.eqb].
    rewrite digits_uint_zeros, of_uint_zeros, digits_uint_digits.
    rewrite DecimalN.Unsigned.of_to, N2Z.inj_abs_N. lia.
  - rewrite parse_d_unsigned.
    rewrite digits_uint_zeros, of_uint_zeros, digits_uint_digits.
    rewrite DecimalN.Unsigned.of_to, N2Z.inj_abs_N. lia.
Qed.

Lemma uint_digits_chars (d : Decimal.uint) :
  Forall (fun c => c <> 0x5F%N) (uint_digits d).
Proof. induction d; cbn [uint_digits]; constructor; auto; discriminate. Qed.

Lemma format_d_chars (width : nat) (n : Z) :
  Forall (fun c => c <> 0x5F%N) (format_d width n).
Proof.
  unfold format_d. rewrite !Forall_app. repeat split.
  - destruct (n <? 0); repeat constructor. discriminate.
  - apply List.Forall_forall. intros c Hc. apply repeat_spec in Hc as ->.
    discriminate.
  - apply uint_digits_chars.
Qed.

Lemma app_separator_inv (sep : char) (l1 : str) :
  forall l2 r1 r2,
    Forall (fun c => c <> sep) l1 -> Forall (fun c => c <> sep) l2 ->
    l1 ++ sep :: r1 = l2 ++ sep :: r2 -> l1 = l2 /\ r1 = r2.
Proof.
  induction l1 as [|c l1 IH]; intros l2 r1 r2 H1 H2 Heq.
  - destruct l2 as [|d l2]; cbn [app] in Heq.
    + injection Heq as ->. now split.
    + injection Heq as <- _. inversion H2; subst. congruence.
  - inversion H1; subst. destruct l2 as [|d l2]; cbn [app] in Heq.
    + injection Heq as -> _. congruence.
    + injection Heq as -> Heq. inversion H2; subst.
      destruct (IH l2 r1 r2) as [-> ->]; try assumption. now split.
Qed.

(** X11. Segments with the same chunk name have the same slide id and the
    same chunk index: the names of the frame, audio and clip files never
    coincide for different pairs. *)
Theorem chunk_name_injective (a b : Segment) :
  chunk_name a = chunk_name b ->
  slide_id a = slide_id b /\ chunk_index a = chunk_index b.
Proof.
  unfold chunk_name. change (py "_") with [0x5F%N]. cbn [app]. intros Heq.
  apply app_separator_inv in Heq as [Hslide Hchunk];
    try apply format_d_chars.
  apply (f_equal parse_d) in Hslide, Hchunk.
  rewrite !parse_format_d in Hslide, Hchunk. now split.
Qed.

Lemma chunk_name_injective_witness :
  slide_id Sample.legacy_segment
  = slide_id (hd Sample.legacy_segment
                (rev (manifest_cache Sample.app_after_synthesis)))
  /\ chunk_index Sample.legacy_segment
     = chunk_index (hd Sample.legacy_segment
                      (rev (manifest_cache Sample.app_after_synthesis))).
Proof.
  apply (chunk_name_injective Sample.legacy_segment
           (hd Sample.legacy_segment
              (rev (manifest_cache Sample.app_after_synthesis)))).
  reflexivity.
Defined.

(** ** Further properties of the segment list *)

Lemma numbered_trimmed (note : str) (chunks : list str) :
  (forall chunk, In chunk chunks -> PyStr.strip chunk = chunk) ->
  forall idx,
    map (fun row : Z * str => (fst row, PyStr.strip (snd row), note))
      (numbered idx chunks)
    = map (fun row : Z * str => (fst row, snd row, note))
        (numbered idx chunks).
Proof.
  intros Htrim. induction chunks as [|chunk rest IH]; intros idx;
    cbn [numbered map fst snd]; [reflexivity|].
  rewrite (Htrim chunk) by now left.
  rewrite IH; [reflexivity|]. intros c Hc. apply Htrim. now right.
Qed.

Section Building.
Context `{Platform}.
Variables (cfg : Config) (slide_images : gmap Z str).

Lemma new_segment_fields (id : Z) (note : option str) (seq_no idx : Z)
  (sentence : str) (segment : Segment) :
  new_segment cfg slide_images id note seq_no idx sentence = Ok segment ->
  1 <= idx ->
  derived cfg slide_images segment
  /\ segment_row segment = (idx, PyStr.strip sentence, default [] note).
Proof.
  unfold new_segment. cbn [slide_image].
  destruct (slide_images !! id) as [image|] eqn:Himage;
    cbn [from_option Datatypes.id PyStr.truthy negb]; [|discriminate].
  destruct image as [|c image]; cbn [PyStr.truthy negb]; [discriminate|].
  intros Hok Hidx. injection Hok as <-. split; [|reflexivity].
  unfold derived, chunk_name.
  cbn [slide_id chunk_index slide_image audio_path].
  rewrite Himage, <- !app_assoc. repeat split; [discriminate|exact Hidx].
Qed.


Lemma new_segment_error (id : Z) (note : option str) (seq_no idx : Z)
  (sentence : str) (e : error) :
  new_segment cfg slide_images id note seq_no idx sentence = Raise e ->
  e = FileNotFoundError.
Proof. unfold new_segment. destruct (negb _); congruence. Qed.

Lemma build_chunks_rows (id : Z) (note : option str) (sentences : list str) :
  forall idx segments seq_no segments' seq_no',
    build_chunks cfg slide_images id note idx sentences segments seq_no
    = Ok (segments', seq_no') ->
    1 <= idx ->
    exists new,
      segments' = segments ++ new
      /\ Forall (derived cfg slide_images) new
      /\ map segment_row new
         = map (fun row : Z * str =>
                  (fst row, PyStr.strip (snd row), default [] note))
             (numbered idx sentences).
Proof.
  induction sentences as [|sentence rest IH];
    intros idx segments seq_no segments' seq_no' Hbuild Hidx;
    cbn [build_chunks] in Hbuild.
  - injection Hbuild as <- _. exists []. rewrite app_nil_r.
    repeat split. constructor.
  - destruct (new_segment cfg slide_images id note seq_no idx sentence)
      as [segment|] eqn:Hnew; cbn [bind] in Hbuild; [|discriminate].
    apply new_segment_fields in Hnew as [Hderived Hrow]; [|exact Hidx].
    apply IH in Hbuild as (new & -> & Hnew & Hrows); [|lia].
    exists (segment :: new). rewrite <- app_assoc.
    cbn [app map numbered fst snd]. rewrite Hrow, Hrows.
    repeat split. now constructor.
Qed.

Lemma build_chunks_error (id : Z) (note : option str) (sentences : list str) :
  forall idx segments seq_no e,
    build_chunks cfg slide_images id note idx sentences segments seq_no
    = Raise e ->
    e = FileNotFoundError.
Proof.
  induction sentences as [|sentence rest IH]; intros idx segments seq_no e;
    cbn [build_chunks]; [discriminate|].
  destruct (new_segment _ _ _ _ _ _ _) as [segment|e'] eqn:Hnew; cbn [bind].
  - apply IH.
  - intros Hraise. injection Hraise as <-.
    exact (new_segment_error _ _ _ _ _ _ Hnew).
Qed.

Lemma build_slides_rows (slides : list Slide) :
  forall segments seq_no segments' seq_no',
    build_slides cfg slide_images slides segments seq_no
    = Ok (segments', seq_no') ->
    exists new,
      segments' = segments ++ new
      /\ Forall (derived cfg slide_images) new
      /\ map segment_row new = concat (map slide_rows slides).
Proof.
  induction slides as [|slide rest IH];
    intros segments seq_no segments' seq_no' Hbuild;
    cbn [build_slides] in Hbuild.
  - injection Hbuild as <- _. exists []. rewrite app_nil_r.
    repeat split. constructor.
  - destruct (build_chunks _ _ _ _ _ _ _ _) as [[mid seq_mid]|] eqn:Hchunks;
      cbn [bind fst snd] in Hbuild; [|discriminate].
    apply build_chunks_rows in Hchunks as (new1 & -> & Hnew1 & Hrows1); [|lia].
    apply IH in Hbuild as (new2 & -> & Hnew2 & Hrows2).
    exists (new1 ++ new2). rewrite <- app_assoc. split; [reflexivity|].
    split; [apply Forall_app; now split|].
    rewrite map_app, Hrows1, Hrows2. cbn [map concat]. f_equal.
    unfold slide_rows. apply numbered_trimmed.
    intros chunk. apply split_script_chunk_strip.
Qed.

Lemma build_slides_error (slides : list Slide) :
  forall segments seq_no e,
    build_slides cfg slide_images slides segments seq_no = Raise e ->
    e = FileNotFoundError.
Proof.
  induction slides as [|slide rest IH]; intros segments seq_no e;
    cbn [build_slides]; [discriminate|].
  destruct (build_chunks _ _ _ _ _ _ _ _) as [[mid seq_mid]|e'] eqn:Hchunks;
    cbn [bind fst snd].
  - apply IH.
  - intros Hraise. injection Hraise as <-.
    exact (build_chunks_error _ _ _ _ _ _ _ Hchunks).
Qed.


(** X12. Every segment that [_generate_audio] builds has the image that the
    table holds for its slide id, which is not empty, an audio path derived
    from its chunk name alone, and a chunk index of at least 1. *)
Theorem build_segments_derived (slides : list Slide) (segments : list Segment) :
  build_segments cfg slide_images slides = Ok segments ->
  Forall (derived cfg slide_images) segments.
Proof.
  unfold build_segments. intros Hbuild.
  destruct (build_slides cfg slide_images slides [] 1) as [[built seq_no]|]
    eqn:Hslides; cbn [bind fst] in Hbuild; [|discriminate].
  injection Hbuild as <-.
  now apply build_slides_rows in Hslides as (new & -> & Hnew & _).
Qed.

(** X13. The segments follow the slides in order and, within a slide, the
    chunks of [split_script] in order: each carries its chunk index,
    counted from 1 within the slide, the chunk as its text, and the note of
    the slide. *)
Theorem build_segments_rows (slides : list Slide) (segments : list Segment) :
  build_segments cfg slide_images slides = Ok segments ->
  map segment_row segments = concat (map slide_rows slides).
Proof.
  unfold build_segments. intros Hbuild.
  destruct (build_slides cfg slide_images slides [] 1) as [[built seq_no]|]
    eqn:Hslides; cbn [bind fst] in Hbuild; [|discriminate].
  injection Hbuild as <-.
  now apply build_slides_rows in Hslides as (new & -> & _ & Hrows).
Qed.

(** The only error of the building loop is the missing image. *)
Lemma build_segments_error (slides : list Slide) (e : error) :
  build_segments cfg slide_images slides = Raise e -> e = FileNotFoundError.
Proof.
  unfold build_segments.
  destruct (build_slides cfg slide_images slides [] 1) as [state|e']
    eqn:Hslides; cbn [bind]; [discriminate|].
  intros Hraise. injection Hraise as <-.
  exact (build_slides_error _ _ _ _ Hslides).
Qed.


End Building.

(** ** Further properties of the synthesis stage *)

Lemma is_file_written (path : str) (f : file) (w : World) :
  is_file (write_file path f w) path = true.
Proof. unfold is_file, write_file. cbn [fs]. now rewrite lookup_insert_eq. Qed.

Lemma is_file_kept (path other : str) (f : file) (w : World) :
  is_file w path = true -> is_file (write_file other f w) path = true.
Proof.
  unfold is_file, write_file. cbn [fs]. rewrite lookup_insert.
  now destruct (decide (other = path)).
Qed.

Lemma is_file_elsewhere (path other : str) (f : file) (w : World) :
  other <> path -> is_file (write_file other f w) path = is_file w path.
Proof.
  intros Hne. unfold is_file, write_file. cbn [fs].
  now rewrite lookup_insert_ne.
Qed.

Section SynthesisStage.
Context `{Platform} `{TtsEngine}.

Lemma synthesize_keeps (speaker : str) (segment : Segment) (w : World)
  (path : str) :
  is_file w path = true ->
  is_file (snd (synthesize speaker segment w)) path = true.
Proof.
  intros Hfile. unfold synthesize, client_synthesize.
  destruct (is_file w (audio_path segment)); [exact Hfile|].
  destruct (engine_synthesize _ _); [|exact Hfile].
  now apply is_file_kept.
Qed.

Lemma synthesize_done (speaker : str) (segment : Segment) (w : World) :
  fst (synthesize speaker segment w) = Ok tt ->
  is_file (snd (synthesize speaker segment w)) (audio_path segment) = true.
Proof.
  unfold synthesize, client_synthesize.
  destruct (is_file w (audio_path segment)) eqn:Hfile; [intros _; exact Hfile|].
  destruct (engine_synthesize _ _); [|discriminate].
  intros _. apply is_file_written.
Qed.

Lemma run_pool_keeps (speaker : str) (order : list Segment) :
  forall w path,
    is_file w path = true ->
    is_file (snd (run_pool speaker order w)) path = true.
Proof.
  induction order as [|segment rest IH]; intros w path Hfile;
    cbn [run_pool]; [exact Hfile|].
  pose proof (synthesize_keeps speaker segment w path Hfile) as Hstep.
  destruct (synthesize speaker segment w) as [r w1]. cbn [snd] in Hstep.
  specialize (IH w1 path Hstep).
  destruct (run_pool speaker rest w1) as [r' w2]. exact IH.
Qed.

Lemma run_pool_done (speaker : str) (order : list Segment) :
  forall w,
    fst (run_pool speaker order w) = Ok tt ->
    forall segment,
      In segment order ->
      is_file (snd (run_pool speaker order w)) (audio_path segment) = true.
Proof.
  induction order as [|first rest IH]; intros w Hok segment Hin;
    [destruct Hin|].
  cbn [run_pool] in *.
  pose proof (synthesize_done speaker first w) as Hfirst.
  destruct (synthesize speaker first w) as [r w1]. cbn [fst snd] in Hfirst.
  pose proof (run_pool_keeps speaker rest w1) as Hkeeps.
  specialize (IH w1).
  destruct (run_pool speaker rest w1) as [r' w2]. cbn [fst snd] in *.
  destruct r as [[]|e]; [|discriminate].
  destruct Hin as [<-|Hin]; [now apply Hkeeps, Hfirst|now apply IH].
Qed.

(** What a successful run of the stage went through. *)
Lemma generate_audio_inv (cfg : Config) (now : str) (slides : list Slide)
  (slide_images : gmap Z str) (schedule : list Segment -> list Segment)
  (app app' : App) :
  generate_audio cfg now slides slide_images schedule app = (Ok tt, app') ->
  exists segments w,
    slides <> []
    /\ slide_images <> ∅
    /\ build_segments cfg slide_images slides = Ok segments
    /\ segments <> []
    /\ (prewarm_var cfg = true ->
        engine_initialize (PyStr.strip (speaker_id_var cfg)) = true)
    /\ run_pool (PyStr.strip (speaker_id_var cfg)) (schedule segments)
         (if prewarm_var cfg
          then log_call
                 (InitializeSpeaker (PyStr.strip (speaker_id_var cfg)))
                 (world app)
          else world app)
       = (Ok tt, w)
    /\ app' = {| world := write_manifest cfg now segments w;
                 manifest_cache := segments |}.
Proof.
  unfold generate_audio. intros Hstage.
  destruct slides as [|slide slides]; [discriminate|].
  destruct (bool_decide_reflect (slide_images = ∅)) as [|Himages];
    [discriminate|].
  destruct (build_segments cfg slide_images (slide :: slides))
    as [[|segment segments]|]; try discriminate.
  unfold client_initialize_speaker in Hstage.
  exists (segment :: segments).
  destruct (prewarm_var cfg).
  - destruct (engine_initialize _) eqn:Hwarm; [|discriminate].
    destruct (run_pool _ _ _) as [[[]|] w] eqn:Hpool; [|discriminate].
    injection Hstage as <-. exists w. repeat split; try discriminate.
    exact Himages.
  - destruct (run_pool _ _ _) as [[[]|] w] eqn:Hpool; [|discriminate].
    injection Hstage as <-. exists w. repeat split; try discriminate.
    exact Himages.
Qed.


(** X15. When the stage succeeds and the pool has completed every task,
    the audio file of every segment and the manifest are on disk. *)
Theorem generate_audio_audio_present (cfg : Config) (now : str)
  (slides : list Slide) (slide_images : gmap Z str)
  (schedule : list Segment -> list Segment) (app app' : App) :
  (forall l, Permutation (schedule l) l) ->
  generate_audio cfg now slides slide_images schedule app = (Ok tt, app') ->
  is_file (world app') (manifest_path_var cfg) = true
  /\ forall segment,
       In segment (manifest_cache app') ->
       is_file (world app') (audio_path segment) = true.
Proof.
  intros Hschedule Hstage.
  apply generate_audio_inv in Hstage
    as (segments & w & _ & _ & _ & _ & _ & Hpool & ->).
  cbn [world manifest_cache]. unfold write_manifest.
  split; [apply is_file_written|].
  intros segment Hin. apply is_file_kept.
  pose proof (run_pool_done (PyStr.strip (speaker_id_var cfg))
                (schedule segments) _ (f_equal fst Hpool) segment) as Hdone.
  rewrite Hpool in Hdone. apply Hdone.
  eapply Permutation_in; [symmetry; apply Hschedule|exact Hin].
Qed.

(** X16. Whatever the outcome of the stage, every file that was on disk is
    still there afterwards; and when the stage raises, the cache is the one
    it started with. *)
Theorem generate_audio_keeps_files (cfg : Config) (now : str)
  (slides : list Slide) (slide_images : gmap Z str)
  (schedule : list Segment -> list Segment) (app app' : App)
  (r : result unit) :
  generate_audio cfg now slides slide_images schedule app = (r, app') ->
  (forall path,
      is_file (world app) path = true -> is_file (world app') path = true)
  /\ (forall e, r = Raise e -> manifest_cache app' = manifest_cache app).
Proof.
  unfold generate_audio, client_initialize_speaker. intros Hstage.
  assert (Hsame : forall e,
             (Raise e, app) = (r, app') ->
             (forall path,
                 is_file (world app) path = true ->
                 is_file (world app') path = true)
             /\ (forall e, r = Raise e ->
                           manifest_cache app' = manifest_cache app)).
  { intros e Heq. injection Heq as <- <-. now split. }
  destruct slides as [|slide slides]; [exact (Hsame _ Hstage)|].
  destruct (bool_decide _); [exact (Hsame _ Hstage)|].
  destruct (build_segments _ _ _) as [[|segment segments]|];
    try exact (Hsame _ Hstage).
  clear Hsame. set (speaker := PyStr.strip (speaker_id_var cfg)) in *.
  set (w := if prewarm_var cfg
            then log_call (InitializeSpeaker speaker) (world app)
            else world app).
  assert (Hw : forall path, is_file w path = is_file (world app) path)
    by (intros path; unfold w; now destruct (prewarm_var cfg)).
  assert (Hpool :
            (let '(r0, w') :=
               run_pool speaker (schedule (segment :: segments)) w in
             match r0 with
             | Raise e =>
                 (Raise e,
                  {| world := w'; manifest_cache := manifest_cache app |})
             | Ok _ =>
                 (Ok tt,
                  {| world := write_manifest cfg now (segment :: segments) w';
                     manifest_cache := segment :: segments |})
             end) = (r, app')
            \/ (prewarm_var cfg = true
                /\ (Raise HTTPError,
                    {| world := w; manifest_cache := manifest_cache app |})
                   = (r, app'))).
  { unfold w. destruct (prewarm_var cfg); [|now left].
    destruct (engine_initialize speaker); [now left|right; now split]. }
  clear Hstage. destruct Hpool as [Hpool|[_ Hpool]].
  - pose proof (run_pool_keeps speaker (schedule (segment :: segments)) w)
      as Hkeeps.
    destruct (run_pool _ _ _) as [[[]|e] w']; cbn [snd] in Hkeeps;
      injection Hpool as <- <-; cbn [world manifest_cache].
    + split; [|discriminate]. intros path Hpath.
      apply is_file_kept, Hkeeps. now rewrite Hw.
    + split; [|reflexivity]. intros path Hpath.
      apply Hkeeps. now rewrite Hw.
  - injection Hpool as <- <-. cbn [world manifest_cache].
    split; [|reflexivity]. intros path Hpath. now rewrite Hw.
Qed.

End SynthesisStage.

Section SynthesisRequests.
Context `{Platform} `{TtsEngine}.

Lemma run_pool_cons (speaker : str) (segment : Segment)
  (rest : list Segment) (w : World) :
  snd (run_pool speaker (segment :: rest) w)
  = snd (run_pool speaker rest (snd (synthesize speaker segment w))).
Proof.
  cbn [run_pool]. destruct (synthesize speaker segment w) as [r w1].
  cbn [snd]. now destruct (run_pool speaker rest w1).
Qed.

(** The requests of a pool follow the calls made before it, and when the
    audio paths of the tasks are pairwise distinct there is one for each
    task whose audio file is missing when the pool starts. *)
Lemma run_pool_log (speaker : str) (order : list Segment) :
  forall w,
    NoDup (map audio_path order) ->
    tts_log (snd (run_pool speaker order w))
    = tts_log w
      ++ map (synthesize_request speaker)
           (List.filter (fun segment => negb (is_file w (audio_path segment)))
              order).
Proof.
  induction order as [|segment rest IH]; intros w Hdistinct.
  - cbn. now rewrite app_nil_r.
  - rewrite run_pool_cons. cbn [map] in Hdistinct.
    apply NoDup_cons in Hdistinct as [Hfresh Hdistinct].
    rewrite IH by exact Hdistinct. cbn [List.filter].
    unfold synthesize, client_synthesize.
    destruct (is_file w (audio_path segment)) eqn:Hfile; cbn [negb snd];
      [reflexivity|].
    assert (Hmissing :
              forall w',
                (forall other, In other rest ->
                               is_file w' (audio_path other)
                               = is_file w (audio_path other)) ->
                List.filter
                  (fun s => negb (is_file w' (audio_path s))) rest
                = List.filter
                    (fun s => negb (is_file w (audio_path s))) rest).
    { intros w' Hsame. apply filter_ext_in. intros other Hother.
      now rewrite Hsame. }
    cbn [map]. unfold synthesize_request at 2.
    destruct (engine_synthesize speaker (script_text segment)) as [wav|];
      cbn [snd].
    + rewrite Hmissing.
      * cbn [tts_log write_file log_call]. now rewrite <- app_assoc.
      * intros other Hother. rewrite is_file_elsewhere; [reflexivity|].
        intros Heq. apply Hfresh. rewrite Heq.
        apply list_elem_of_In, in_map, Hother.
    + rewrite Hmissing by reflexivity.
      cbn [tts_log log_call]. now rewrite <- app_assoc.
Qed.

(** X17. When the audio paths of the submitted segments are pairwise
    distinct, then however the pool schedules them, the calls it adds to
    those made before are, up to their order, exactly one synthesis request
    for each segment whose audio file is missing when the pool starts, and
    none for a segment whose file exists; this holds whether or not the
    requests succeed. *)
Theorem run_pool_requests (speaker : str) (segments order : list Segment)
  (w : World) :
  Permutation order segments ->
  NoDup (map audio_path segments) ->
  exists sent,
    tts_log (snd (run_pool speaker order w)) = tts_log w ++ sent
    /\ Permutation sent
         (map (synthesize_request speaker)
            (List.filter
               (fun segment => negb (is_file w (audio_path segment)))
               segments)).
Proof.
  intros Horder Hdistinct.
  exists (map (synthesize_request speaker)
            (List.filter
               (fun segment => negb (is_file w (audio_path segment))) order)).
  split.
  - apply run_pool_log. now rewrite Horder.
  - apply Permutation_map. clear Hdistinct. revert Horder.
    generalize (fun segment => negb (is_file w (audio_path segment))).
    intros keep Horder.
    induction Horder as [|x l l' _ IH|x y l|l l' l'' _ IH1 _ IH2].
    + constructor.
    + cbn [List.filter]. destruct (keep x); [apply perm_skip|]; exact IH.
    + cbn [List.filter]. destruct (keep x), (keep y);
        try reflexivity; apply perm_swap.
    + exact (perm_trans IH1 IH2).
Qed.

End SynthesisRequests.

(** X18. Running the stage again after it has succeeded, on the same
    script and images, with any scheduling of the pool and with the engine
    as it is then: provided the engine answers the pre-warm call of the
    second run when pre-warm is on, the second run succeeds, sends no
    synthesis request, keeps the same segments and writes their manifest
    again. Whether the engine can still synthesize is of no account. *)
Theorem generate_audio_again `{Platform} (first second : TtsEngine)
  (cfg : Config) (now now' : str)
  (slides : list Slide) (slide_images : gmap Z str)
  (schedule schedule' : list Segment -> list Segment) (app app1 : App) :
  (forall l, Permutation (schedule l) l) ->
  (forall l, Permutation (schedule' l) l) ->
  generate_audio (H1 := first) cfg now slides slide_images schedule app
  = (Ok tt, app1) ->
  (prewarm_var cfg = true ->
   engine_initialize (TtsEngine := second)
     (PyStr.strip (speaker_id_var cfg)) = true) ->
  exists app2,
    generate_audio (H1 := second) cfg now' slides slide_images schedule' app1
    = (Ok tt, app2)
    /\ synthesize_calls (world app2) = synthesize_calls (world app1)
    /\ manifest_cache app2 = manifest_cache app1
    /\ fs (world app2) !! manifest_path_var cfg
       = Some (FJson (manifest_payload cfg now' (manifest_cache app1))).
Proof.
  intros Hschedule Hschedule' Hstage Hwarm'.
  apply generate_audio_inv in Hstage
    as (segments & w & Hslides & Himages & Hbuild & Hne & Hwarm & Hpool & ->).
  cbn [world manifest_cache].
  set (speaker := PyStr.strip (speaker_id_var cfg)) in *.
  set (w1 := write_manifest cfg now segments w).
  assert (Hpresent : forall segment,
             In segment segments -> is_file w1 (audio_path segment) = true).
  { intros segment Hin. apply is_file_kept.
    pose proof (run_pool_done (H0 := first) speaker (schedule segments) _
                  (f_equal fst Hpool) segment) as Hdone.
    rewrite Hpool in Hdone. apply Hdone.
    eapply Permutation_in; [symmetry; apply Hschedule|exact Hin]. }
  set (w2 := if prewarm_var cfg
             then log_call (InitializeSpeaker speaker) w1 else w1).
  assert (Hcalls : synthesize_calls w2 = synthesize_calls w1).
  { unfold w2, synthesize_calls, log_call.
    destruct (prewarm_var cfg); [|reflexivity].
    cbn [tts_log]. rewrite List.filter_app. cbn [List.filter].
    apply app_nil_r. }
  assert (Hpool2 : run_pool (H1 := second) speaker (schedule' segments) w2
                   = (Ok tt, w2)).
  { apply run_pool_existing. intros segment Hin.
    assert (Hfs : is_file w2 (audio_path segment)
                  = is_file w1 (audio_path segment))
      by (unfold w2; now destruct (prewarm_var cfg)).
    rewrite Hfs. apply Hpresent.
    eapply Permutation_in; [apply Hschedule'|exact Hin]. }
  exists {| world := write_manifest cfg now' segments w2;
            manifest_cache := segments |}.
  cbn [world manifest_cache]. split; [|split; [exact Hcalls|split]].
  - unfold generate_audio. destruct slides as [|slide slides]; [congruence|].
    rewrite bool_decide_eq_false_2 by assumption. rewrite Hbuild.
    destruct segments as [|segment segments]; [congruence|].
    fold speaker. unfold client_initialize_speaker. cbn [world].
    fold w1. destruct (prewarm_var cfg) eqn:Hprewarm.
    + rewrite (Hwarm' eq_refl).
      change (log_call (InitializeSpeaker speaker) w1) with w2.
      rewrite Hpool2. reflexivity.
    + change w1 with w2 at 1. rewrite Hpool2. reflexivity.
  - reflexivity.
  - unfold write_manifest, write_file. cbn [fs]. apply lookup_insert_eq.
Qed.

(** ** Further properties of the manifest and the assembly stage *)

Section Loading.
Context `{Platform}.

(** X19. Loading is all or nothing and keeps positions: when it succeeds
    there is one segment per stored item, each the one that its item loads
    as at its position; and one item that fails to load makes the whole
    load raise. *)
Theorem load_segments_pointwise (items : list json) :
  forall idx,
    (forall segments,
        load_segments idx items = Ok segments ->
        length segments = length items
        /\ forall i item,
             items !! i = Some item ->
             exists segment,
               segments !! i = Some segment
               /\ load_segment (idx + i) item = Ok segment)
    /\ (forall i item e,
          items !! i = Some item ->
          load_segment (idx + i) item = Raise e ->
          exists e', load_segments idx items = Raise e').
Proof.
  induction items as [|first rest IH]; intros idx; cbn [load_segments].
  - split.
    + intros segments Hok. injection Hok as <-. split; [reflexivity|].
      intros i item Hi. now rewrite lookup_nil in Hi.
    + intros i item e Hi. now rewrite lookup_nil in Hi.
  - destruct (IH (S idx)) as [IHok IHraise]. split.
    + intros segments Hok.
      destruct (load_segment idx first) as [segment|] eqn:Hfirst;
        cbn [bind] in Hok; [|discriminate].
      destruct (load_segments (S idx) rest) as [loaded|] eqn:Hrest;
        cbn [bind] in Hok; [|discriminate].
      injection Hok as <-. destruct (IHok loaded eq_refl) as [Hlen Hitems].
      split; [cbn [length]; now rewrite Hlen|].
      intros [|i] item Hi; cbn in Hi.
      * injection Hi as <-. exists segment.
        rewrite Nat.add_0_r. now split.
      * destruct (Hitems i item Hi) as (s & Hs & Hload).
        exists s. split; [exact Hs|].
        now replace (idx + S i)%nat with (S idx + i)%nat by lia.
    + intros [|i] item e Hi Hload; cbn in Hi.
      * injection Hi as <-. rewrite Nat.add_0_r in Hload. rewrite Hload.
        now exists e.
      * destruct (load_segment idx first); cbn [bind]; [|now eexists].
        replace (idx + S i)%nat with (S idx + i)%nat in Hload by lia.
        destruct (IHraise i item e Hi Hload) as [e' ->]. now exists e'.
Qed.

End Loading.

Section AssemblyStage.
Context `{FontRasterizer} `{Platform} `{TtsEngine} `{Encoder}.

Lemma block_layout_ok (text font_path : str) (box : Z * Z * Z * Z)
  (max_size min_size : Z) :
  min_size <= max_size ->
  (PyStr.truthy (PyStr.strip text) = true ->
   candidates_load font_path max_size min_size) ->
  exists l, block_layout text font_path box max_size min_size = Ok l.
Proof.
  intros Hsizes Hload. unfold block_layout.
  destruct (PyStr.truthy _); [|now eexists].
  destruct (fit_text_to_box_ok (PyStr.strip text) font_path box
              max_size min_size Hsizes (Hload eq_refl)) as [l ->].
  now eexists.
Qed.

Lemma block_layout_raises (text font_path : str) (box : Z * Z * Z * Z)
  (max_size min_size : Z) (e : error) :
  min_size <= max_size ->
  block_layout text font_path box max_size min_size = Raise e ->
  e <> RuntimeError.
Proof.
  intros Hsizes. unfold block_layout.
  destruct (PyStr.truthy _); [|discriminate].
  destruct (fit_text_to_box _ _ _ _ _) as [l|e'] eqn:Hfit; cbn [bind];
    [discriminate|].
  intros [= <-] ->. apply fit_text_to_box_runtime_error in Hfit. lia.
Qed.

(** With both images on disk and the fonts of the texts that are not blank
    loading at every candidate size, the frame is saved. *)
Lemma compose_frame_saves (slide_path background_path script_font
  note_font script note dest_path : str) (w : World) :
  fs w !! background_path = Some FImage ->
  fs w !! slide_path = Some FImage ->
  (PyStr.truthy (PyStr.strip script) = true ->
   candidates_load script_font 70 28) ->
  (PyStr.truthy (PyStr.strip note) = true ->
   candidates_load note_font 46 18) ->
  compose_frame slide_path background_path script_font note_font script note
    dest_path w
  = (Ok tt, write_file dest_path FImage w).
Proof.
  intros Hbackground Hslide Hscript Hnote.
  unfold compose_frame, image_open. rewrite Hbackground, Hslide. cbn [bind].
  destruct (block_layout_ok script script_font SCRIPT_BOX 70 28
              ltac:(lia) Hscript) as [l ->].
  destruct (block_layout_ok note note_font NOTE_BOX 46 18
              ltac:(lia) Hnote) as [l' ->].
  reflexivity.
Qed.

(** X20. [compose_frame] either saves the frame and changes nothing else,
    or raises and changes nothing; it never raises [RuntimeError]. It saves
    the frame when the background and the slide are images on disk and, for
    each text that is not blank, the font loads at every candidate size. It
    raises [FileNotFoundError] when the background, or else the slide, is
    missing, [OSError] when the background is a file that is not an image,
    and the error of the loader when the images are there, the script is not
    blank and its font cannot be loaded at size 70. *)
Theorem compose_frame_outcome (slide_path background_path script_font
  note_font script note dest_path : str) (w : World) :
  let run :=
    compose_frame slide_path background_path script_font note_font script
      note dest_path w in
  (run = (Ok tt, write_file dest_path FImage w)
   \/ exists e, e <> RuntimeError /\ run = (Raise e, w))
  /\ (fs w !! background_path = Some FImage ->
      fs w !! slide_path = Some FImage ->
      (PyStr.truthy (PyStr.strip script) = true ->
       candidates_load script_font 70 28) ->
      (PyStr.truthy (PyStr.strip note) = true ->
       candidates_load note_font 46 18) ->
      run = (Ok tt, write_file dest_path FImage w))
  /\ (fs w !! background_path = None -> run = (Raise FileNotFoundError, w))
  /\ (fs w !! background_path = Some FImage ->
      fs w !! slide_path = None ->
      run = (Raise FileNotFoundError, w))
  /\ (forall f,
        fs w !! background_path = Some f -> f <> FImage ->
        run = (Raise OSError, w))
  /\ (forall e,
        fs w !! background_path = Some FImage ->
        fs w !! slide_path = Some FImage ->
        PyStr.truthy (PyStr.strip script) = true ->
        truetype script_font 70 = Raise e ->
        run = (Raise e, w)).
Proof.
  intros run. split; [|split; [|split; [|split; [|split]]]].
  - unfold run, compose_frame, image_open.
    destruct (fs w !! background_path) as [[]|]; cbn [bind];
      try (right; exists OSError; split; [discriminate|reflexivity]);
      try (right; exists FileNotFoundError; split;
           [discriminate|reflexivity]).
    destruct (fs w !! slide_path) as [[]|]; cbn [bind];
      try (right; exists OSError; split; [discriminate|reflexivity]);
      try (right; exists FileNotFoundError; split;
           [discriminate|reflexivity]).
    destruct (block_layout script script_font SCRIPT_BOX 70 28)
      as [l|e] eqn:Hscript; cbn [bind].
    + destruct (block_layout note note_font NOTE_BOX 46 18)
        as [l'|e] eqn:Hnote; cbn [bind]; [now left|].
      right. exists e. split; [|reflexivity].
      eapply block_layout_raises; [|exact Hnote]. lia.
    + right. exists e. split; [|reflexivity].
      eapply block_layout_raises; [|exact Hscript]. lia.
  - apply compose_frame_saves.
  - intros Hbackground. unfold run, compose_frame, image_open.
    now rewrite Hbackground.
  - intros Hbackground Hslide. unfold run, compose_frame, image_open.
    now rewrite Hbackground, Hslide.
  - intros f Hbackground Hkind. unfold run, compose_frame, image_open.
    rewrite Hbackground. now destruct f.
  - intros e Hbackground Hslide Htext Hfont.
    unfold run, compose_frame, image_open, block_layout.
    rewrite Hbackground, Hslide, Htext. cbn [bind].
    rewrite (fit_text_to_box_first_font (PyStr.strip script) script_font
               SCRIPT_BOX 70 28 e ltac:(lia) Hfont).
    reflexivity.
Qed.

(** X21. For a segment whose images are on disk and whose fonts load, but
    whose audio file is missing, the clip step saves the frame and raises
    [FileNotFoundError] without starting the encoder. *)
Theorem encode_clip_missing_audio (cfg : Config) (segment : Segment)
  (w : World) :
  let frame_path :=
    joinpath (frame_dir_var cfg) (chunk_name segment ++ py ".png") in
  fs w !! background_var cfg = Some FImage ->
  fs w !! slide_image segment = Some FImage ->
  (PyStr.truthy (PyStr.strip (script_text segment)) = true ->
   candidates_load (script_font_var cfg) 70 28) ->
  (PyStr.truthy (PyStr.strip (note_bottom segment)) = true ->
   candidates_load (note_font_var cfg) 46 18) ->
  is_file w (audio_path segment) = false ->
  audio_path segment <> frame_path ->
  encode_clip cfg segment w
  = (Raise FileNotFoundError, write_file frame_path FImage w).
Proof.
  intros frame_path Hbackground Hslide Hscript Hnote Haudio Hpaths.
  unfold encode_clip.
  rewrite compose_frame_saves by assumption.
  fold frame_path. rewrite is_file_elsewhere by congruence.
  now rewrite Haudio.
Qed.

(** X22. The assembly stage starts from the cache whenever it is not
    empty, without reading the disk. With an empty cache it raises
    [FileNotFoundError] when there is no manifest file, and [RuntimeError]
    when the manifest has no segments; in both cases nothing is changed. *)
Theorem assemble_video_preconditions (cfg : Config) (app : App) :
  (manifest_cache app <> [] ->
   assembly_segments cfg app = (Ok (manifest_cache app), app))
  /\ (manifest_cache app = [] ->
      fs (world app) !! manifest_path_var cfg = None ->
      assemble_video cfg app = (Raise FileNotFoundError, app))
  /\ (forall fields,
        manifest_cache app = [] ->
        fs (world app) !! manifest_path_var cfg = Some (FJson (JObj fields)) ->
        dict_get (py "segments") fields = None
        \/ dict_get (py "segments") fields = Some (JArr []) ->
        assemble_video cfg app = (Raise RuntimeError, app)).
Proof.
  destruct app as [w cache]. cbn [manifest_cache world].
  split; [|split].
  - intros Hcache. unfold assembly_segments. cbn [manifest_cache].
    destruct cache; [congruence|reflexivity].
  - intros -> Hfile. unfold assemble_video, assembly_segments,
      load_manifest_from_disk. cbn [manifest_cache world].
    now rewrite Hfile.
  - intros fields -> Hfile Hsegments.
    unfold assemble_video, assembly_segments, load_manifest_from_disk.
    cbn [manifest_cache world]. rewrite Hfile. unfold get_default.
    destruct Hsegments as [-> | ->]; reflexivity.
Qed.

End AssemblyStage.

(** ** Slide image files *)

Lemma uint_digits_ascii (d : Decimal.uint) :
  forallb ascii_digit (uint_digits d) = true.
Proof. induction d; cbn [uint_digits forallb]; [reflexivity|exact IHd..]. Qed.

Lemma zeros_ascii (k : nat) : forallb ascii_digit (repeat 0x30%N k) = true.
Proof. induction k as [|k IH]; [reflexivity|exact IH]. Qed.

Lemma to_uint_digits_not_nil (n : N) : uint_digits (N.to_uint n) <> [].
Proof.
  destruct n as [|p]; [discriminate|]. cbn [N.to_uint].
  pose proof (DecimalPos.Unsigned.to_uint_nonnil p) as Hnil.
  destruct (Pos.to_uint p); [congruence|discriminate..].
Qed.

Section SlideFiles.
Context `{Platform}.
Variable isdecimal : char -> bool.
Hypothesis Hreads : reads_ascii_digits isdecimal.

Lemma ascii_digit_below (c : char) : ascii_digit c = true -> (c < 128)%N.
Proof.
  unfold ascii_digit. intros Hc. apply andb_prop in Hc as [_ Hc].
  apply N.leb_le in Hc. lia.
Qed.

Lemma take_digits_run (s : str) :
  forallb ascii_digit s = true -> take_digits isdecimal s = s.
Proof.
  induction s as [|c s IH]; cbn [forallb take_digits]; [reflexivity|].
  intros Hs. apply andb_prop in Hs as [Hc Hs].
  rewrite (proj1 Hreads c (ascii_digit_below c Hc)), Hc. now rewrite IH.
Qed.

Lemma search_digits_skip (skipped s : str) :
  forallb (fun c => (c <? 128)%N && negb (ascii_digit c)) skipped = true ->
  search_digits isdecimal (skipped ++ s) = search_digits isdecimal s.
Proof.
  induction skipped as [|c skipped IH]; cbn [forallb app search_digits];
    [reflexivity|].
  intros Hs. apply andb_prop in Hs as [Hc Hs]. apply andb_prop in Hc as [Hc Hd].
  apply N.ltb_lt in Hc. apply negb_true_iff in Hd.
  rewrite (proj1 Hreads c Hc), Hd. now apply IH.
Qed.

Lemma search_digits_run (s : str) :
  s <> [] -> forallb ascii_digit s = true ->
  search_digits isdecimal s = Some s.
Proof.
  intros Hne Hs. destruct s as [|c s]; [congruence|].
  pose proof (take_digits_run (c :: s) Hs) as Hrun.
  cbn [search_digits]. cbn [forallb] in Hs. apply andb_prop in Hs as [Hc _].
  rewrite (proj1 Hreads c (ascii_digit_below c Hc)), Hc. now rewrite Hrun.
Qed.

(** X23. The image that [_generate_slides] saves for slide id [id] enters the
    table of [_generate_audio] under the key [|id|]: under [id] itself when
    it is not negative, and under another key when it is negative, since
    the pattern reads the digits without the sign. In particular a page
    without an id in the script is found under its page number. *)
Theorem slide_stem_key :
  (forall id, stem_key isdecimal (slide_stem id) = Some (Ok (Z.abs id)))
  /\ (forall yaml_data index,
        (forall slide,
            yaml_data !! (index - 1)%nat = Some slide ->
            slide_id_field slide = None) ->
        stem_key isdecimal (slide_stem (page_slide_id yaml_data index))
        = Some (Ok (Z.of_nat index))).
Proof.
  assert (Hkey : forall id,
             stem_key isdecimal (slide_stem id) = Some (Ok (Z.abs id))).
  { intros id. unfold stem_key, slide_stem, format_d.
    set (digits := uint_digits (N.to_uint (Z.abs_N id))).
    set (padded := repeat 0x30%N
                     (3 - length (if id <? 0 then [0x2D%N] else [])
                      - length digits) ++ digits).
    assert (Hascii : forallb ascii_digit padded = true).
    { unfold padded. rewrite forallb_app, zeros_ascii.
      apply uint_digits_ascii. }
    assert (Hne : padded <> []).
    { unfold padded. intros Hnil. apply app_eq_nil in Hnil as [_ Hnil].
      exact (to_uint_digits_not_nil _ Hnil). }
    rewrite app_assoc, search_digits_skip
      by (destruct (id <? 0); reflexivity).
    rewrite (search_digits_run padded Hne Hascii).
    rewrite (proj2 Hreads padded Hne Hascii). unfold padded, digits.
    rewrite digits_uint_zeros, of_uint_zeros, digits_uint_digits.
    now rewrite DecimalN.Unsigned.of_to, N2Z.inj_abs_N. }
  split; [exact Hkey|].
  intros yaml_data index Hnone. rewrite Hkey. unfold page_slide_id.
  destruct (yaml_data !! (index - 1)%nat) as [slide|] eqn:Hslide.
  - rewrite (Hnone slide eq_refl). cbn [default from_option].
    now rewrite Z.abs_eq by lia.
  - now rewrite Z.abs_eq by lia.
Qed.

End SlideFiles.

Lemma sample_reads_ascii_digits :
  reads_ascii_digits (H := SampleDigits.platform) SampleDigits.isdecimal.
Proof.
  split; [reflexivity|].
  intros s Hne Hs. destruct s as [|c s]; [congruence|].
  cbn [int_of_str SampleDigits.platform]. now rewrite Hs.
Qed.

Lemma slide_stem_key_witness :
  stem_key (H := SampleDigits.platform) SampleDigits.isdecimal
    (slide_stem (-5))
  = Some (Ok 5).
Proof.
  apply (proj1 (slide_stem_key (H := SampleDigits.platform)
                  SampleDigits.isdecimal sample_reads_ascii_digits) (-5)).
Defined.

Section AssemblyOrder.
Context `{FontRasterizer} `{Platform} `{TtsEngine} `{Encoder}.

(** X24. The assembly stage does not reorder: with any non-empty list of
    segments in the cache, whatever their sequence numbers, once the clips
    are encoded the concatenation list holds the lines of the segments in
    the order of that list. *)
Theorem assemble_video_list_order (cfg : Config) (app : App) (w : World) :
  manifest_cache app <> [] ->
  encode_clips cfg (manifest_cache app) (world app) = (Ok tt, w) ->
  assemble_video cfg app
  = (Ok tt,
     {| world := write_concat_list cfg (manifest_cache app) w;
        manifest_cache := manifest_cache app |})
  /\ fs (write_concat_list cfg (manifest_cache app) w) !! concat_list_var cfg
     = Some (FText (concat (map (concat_line cfg) (manifest_cache app)))).
Proof.
  destruct app as [w0 cache]. cbn [manifest_cache world].
  intros Hcache Hclips. split.
  - unfold assemble_video, assembly_segments. cbn [manifest_cache].
    destruct cache as [|segment segments]; [congruence|].
    cbn [world manifest_cache]. now rewrite Hclips.
  - unfold write_concat_list, write_file. cbn [fs].
    now rewrite lookup_insert_eq, concat_lines_written.
Qed.

End AssemblyOrder.

(** ** The sample run, continued *)

Section SampleChecks.
#[local] Existing Instances
  Sample.rasterizer Sample.platform Sample.engine Sample.encoder.

Lemma sample_stage_succeeds :
  generate_audio Sample.cfg Sample.now Sample.slides Sample.slide_images
    (@rev Segment) Sample.app
  = (Ok tt, Sample.app_after_synthesis).
Proof. vm_compute. reflexivity. Qed.

Lemma sample_segments_built :
  build_segments Sample.cfg Sample.slide_images Sample.slides
  = Ok (manifest_cache Sample.app_after_synthesis).
Proof. vm_compute. reflexivity. Qed.

Lemma rev_permutes (l : list Segment) : Permutation (rev l) l.
Proof. symmetry. apply Permutation_rev. Qed.

Lemma build_segments_derived_witness :
  Forall (derived Sample.cfg Sample.slide_images)
    (manifest_cache Sample.app_after_synthesis).
Proof.
  apply (build_segments_derived Sample.cfg Sample.slide_images Sample.slides).
  exact sample_segments_built.
Defined.

Lemma build_segments_rows_witness :
  map segment_row (manifest_cache Sample.app_after_synthesis)
  = concat (map slide_rows Sample.slides).
Proof.
  apply (build_segments_rows Sample.cfg Sample.slide_images Sample.slides).
  exact sample_segments_built.
Defined.


Lemma generate_audio_audio_present_witness :
  is_file (world Sample.app_after_synthesis) (manifest_path_var Sample.cfg)
  = true.
Proof.
  apply (proj1 (generate_audio_audio_present Sample.cfg Sample.now
                  Sample.slides Sample.slide_images (@rev Segment)
                  Sample.app Sample.app_after_synthesis
                  rev_permutes sample_stage_succeeds)).
Defined.

Lemma generate_audio_keeps_files_witness :
  is_file (world Sample.app_after_synthesis) (py "background.png") = true.
Proof.
  apply (proj1 (generate_audio_keeps_files Sample.cfg Sample.now
                  Sample.slides Sample.slide_images (@rev Segment)
                  Sample.app Sample.app_after_synthesis (Ok tt)
                  sample_stage_succeeds)).
  reflexivity.
Defined.

Lemma run_pool_requests_witness :
  exists sent,
    tts_log
      (snd (run_pool (py "888753760")
              (rev (manifest_cache Sample.app_after_synthesis)) Sample.disk))
    = tts_log Sample.disk ++ sent
    /\ Permutation sent
         (map (synthesize_request (py "888753760"))
            (List.filter
               (fun segment =>
                  negb (is_file Sample.disk (audio_path segment)))
               (manifest_cache Sample.app_after_synthesis))).
Proof.
  apply (run_pool_requests (py "888753760")
           (manifest_cache Sample.app_after_synthesis)
           (rev (manifest_cache Sample.app_after_synthesis)) Sample.disk).
  - apply rev_permutes.
  - apply (bool_decide_unpack _). vm_compute. exact I.
Defined.

Lemma generate_audio_again_witness :
  exists app2,
    generate_audio (H1 := Sample.engine_without_synthesis)
      Sample.cfg Sample.now Sample.slides Sample.slide_images
      (fun l => l) Sample.app_after_synthesis
    = (Ok tt, app2)
    /\ synthesize_calls (world app2)
       = synthesize_calls (world Sample.app_after_synthesis).
Proof.
  destruct (generate_audio_again Sample.engine Sample.engine_without_synthesis
              Sample.cfg Sample.now Sample.now
              Sample.slides Sample.slide_images (@rev Segment) (fun l => l)
              Sample.app Sample.app_after_synthesis
              rev_permutes (fun l => Permutation_refl l)
              sample_stage_succeeds (fun _ => eq_refl))
    as (app2 & Hrun & Hcalls & _).
  exists app2. split; [exact Hrun|exact Hcalls].
Defined.

Lemma load_segments_pointwise_witness :
  length (manifest_cache Sample.app_after_synthesis)
  = length (map segment_dict (manifest_cache Sample.app_after_synthesis)).
Proof.
  apply (proj1 (proj1 (load_segments_pointwise
                         (map segment_dict
                            (manifest_cache Sample.app_after_synthesis))
                         0)
                  (manifest_cache Sample.app_after_synthesis)
                  (load_segments_dicts _ 0))).
Defined.

Lemma compose_frame_outcome_witness :
  compose_frame (py "slides/slide_002.png") (py "background.png")
    (py "script.ttf") (py "note.ttf") (py "C。") [] (py "frames/002_01.png")
    Sample.disk
  = (Ok tt, write_file (py "frames/002_01.png") FImage Sample.disk)
  /\ compose_frame (H := Sample.rasterizer_without_fonts)
       (py "slides/slide_002.png") (py "background.png")
       (py "script.ttf") (py "note.ttf") (py "C。") [] (py "frames/002_01.png")
       Sample.disk
     = (Raise OSError, Sample.disk).
Proof.
  split.
  - apply (proj1 (proj2 (compose_frame_outcome
                           (py "slides/slide_002.png") (py "background.png")
                           (py "script.ttf") (py "note.ttf") (py "C。") []
                           (py "frames/002_01.png") Sample.disk)));
      try reflexivity; intros _ size _; eexists; reflexivity.
  - apply (proj2 (proj2 (proj2 (proj2 (proj2
             (compose_frame_outcome (H := Sample.rasterizer_without_fonts)
                (py "slides/slide_002.png") (py "background.png")
                (py "script.ttf") (py "note.ttf") (py "C。") []
                (py "frames/002_01.png") Sample.disk))))));
      reflexivity.
Defined.

Lemma encode_clip_missing_audio_witness :
  encode_clip Sample.cfg Sample.legacy_segment Sample.disk
  = (Raise FileNotFoundError,
     write_file
       (joinpath (frame_dir_var Sample.cfg)
          (chunk_name Sample.legacy_segment ++ py ".png"))
       FImage Sample.disk).
Proof.
  apply (encode_clip_missing_audio Sample.cfg Sample.legacy_segment
           Sample.disk); try reflexivity;
    try (intros _ size _; eexists; reflexivity).
  vm_compute. discriminate.
Defined.

Lemma assemble_video_preconditions_witness :
  assemble_video Sample.cfg Sample.app
  = (Raise FileNotFoundError, Sample.app).
Proof.
  apply (proj1 (proj2 (assemble_video_preconditions Sample.cfg Sample.app)));
    reflexivity.
Defined.

Lemma assemble_video_list_order_witness :
  assemble_video Sample.cfg Sample.app_after_synthesis
  = (Ok tt,
     {| world :=
          write_concat_list Sample.cfg
            (manifest_cache Sample.app_after_synthesis)
            Sample.world_after_clips;
        manifest_cache := manifest_cache Sample.app_after_synthesis |}).
Proof.
  apply (proj1 (assemble_video_list_order Sample.cfg
                  Sample.app_after_synthesis Sample.world_after_clips
                  ltac:(vm_compute; discriminate)
                  ltac:(vm_compute; reflexivity))).
Defined.

End SampleChecks.
